(** * TwBot: the rating store, the FACEIT client, the daily reset and the
      [!elo] dispatcher of [BotTwitch.py], as a shallow embedding.

    Conventions of the model.
    - A Python [str] is a [string] (its UTF-8 bytes); the content of the
      history file is a [text], a list of bytes.
    - A Python [int] is a [Z].
    - A reading of [time.time()] is a [Z], counted in microseconds; the
      cooldown of 5 seconds is [5000000].
    - [datetime.datetime.now(self.TIMEZONE)] is an input of every operation
      that reads the clock: an aware [datetime] whose fields are the wall
      clock of the configured zone.
    - A [try: ... except Exception] block is an [option] computation whose
      [None] is the handler's branch. *)

From Stdlib Require Import ZArith NArith List String Ascii Bool Lia.
From Stdlib Require Import DecimalString DecimalZ DecimalPos.
Import ListNotations.

#[local] Open Scope Z_scope.

(** ** Option as the error monad of the [try] blocks *)

Notation "' p <- e ;; k" :=
  (match e with Some p => k | None => None end)
  (at level 61, p pattern, e at next level, right associativity).
Notation "x <- e ;; k" :=
  (match e with Some x => k | None => None end)
  (at level 61, e at next level, right associativity).

Definition text := list ascii.

Definition str (s : string) : text := list_ascii_of_string s.

(** ** Calendar and clock: the part of [datetime] the bot uses *)

Module Clock.

(** An aware [datetime.datetime]; [utcoffset] is in minutes east of UTC
    (pytz offsets are whole minutes), [None] for a naive value. *)
Record datetime := mkDT {
  year : N; month : N; day : N;
  hour : N; minute : N; second : N; microsecond : N;
  utcoffset : option Z
}.

Record date := mkDate { d_year : N; d_month : N; d_day : N }.

Definition date_of (dt : datetime) : date :=
  mkDate (year dt) (month dt) (day dt).

Definition is_leap (y : N) : bool :=
  ((y mod 4 =? 0) && (negb (y mod 100 =? 0) || (y mod 400 =? 0)))%N.

Definition days_in_month (y m : N) : N :=
  match m with
  | 2 => if is_leap y then 29 else 28
  | 4 | 6 | 9 | 11 => 30
  | _ => 31
  end%N.

Definition days_before_year (y : N) : Z :=
  let p := Z.of_N y - 1 in
  p * 365 + p / 4 - p / 100 + p / 400.

Fixpoint days_before_month_aux (y : N) (k : nat) : Z :=
  match k with
  | O => 0
  | S k' => days_before_month_aux y k' + Z.of_N (days_in_month y (N.of_nat k))
  end.

(** Days of the year before the first of month [m]. *)
Definition days_before_month (y m : N) : Z :=
  days_before_month_aux y (N.to_nat m - 1).

(** [date.toordinal()]. *)
Definition toordinal (d : date) : Z :=
  days_before_year (d_year d) + days_before_month (d_year d) (d_month d)
  + Z.of_N (d_day d).

Definition wf_dateb (d : date) : bool :=
  ((1 <=? d_year d) && (d_year d <=? 9999) &&
   (1 <=? d_month d) && (d_month d <=? 12) &&
   (1 <=? d_day d) && (d_day d <=? days_in_month (d_year d) (d_month d)))%N.

Definition wf_offsetb (o : option Z) : bool :=
  match o with
  | None => true
  | Some m => (-1440 <? m) && (m <? 1440)
  end.

(** The invariant of every [datetime] object Python can build. *)
Definition wf_datetimeb (dt : datetime) : bool :=
  wf_dateb (date_of dt) &&
  ((hour dt <? 24) && (minute dt <? 60) && (second dt <? 60) &&
   (microsecond dt <? 1000000))%N &&
  wf_offsetb (utcoffset dt).

Definition date_eqb (a b : date) : bool :=
  ((d_year a =? d_year b) && (d_month a =? d_month b) &&
   (d_day a =? d_day b))%N.









End Clock.
Export Clock.

(** ** ISO-8601 text of a timestamp: [isoformat] and [fromisoformat] *)

Module Iso.

#[local] Open Scope char_scope.

Definition digit_char (d : N) : ascii := ascii_of_N (48 + d).

Definition digit_val (c : ascii) : option N :=
  let n := N_of_ascii c in
  if ((48 <=? n) && (n <=? 57))%N then Some (n - 48)%N else None.

(** [k] decimal digits of [n], zero padded (Python's [%0kd]). *)
Fixpoint pad (k : nat) (n : N) : text :=
  match k with
  | O => []
  | S k' => pad k' (n / 10)%N ++ [digit_char (n mod 10)%N]
  end.

(** Reads exactly [k] decimal digits. *)
Fixpoint digits (k : nat) (acc : N) (cs : text) : option (N * text) :=
  match k with
  | O => Some (acc, cs)
  | S k' =>
      match cs with
      | [] => None
      | c :: cs' => d <- digit_val c ;; digits k' (10 * acc + d)%N cs'
      end
  end.

Definition expect (c : ascii) (cs : text) : option text :=
  match cs with
  | c' :: cs' => if Ascii.eqb c c' then Some cs' else None
  | [] => None
  end.

Definition offset_text (o : option Z) : text :=
  match o with
  | None => []
  | Some m =>
      (if (m <? 0)%Z then "-" else "+")
        :: pad 2 (Z.to_N (Z.abs m / 60))
        ++ ":" :: pad 2 (Z.to_N (Z.abs m mod 60))
  end.

Definition fraction_text (us : N) : text :=
  if (us =? 0)%N then [] else "." :: pad 6 us.

(** [datetime.isoformat()]:
    [YYYY-MM-DDTHH:MM:SS[.ffffff][+HH:MM]]. *)
Definition isoformat (dt : datetime) : string :=
  string_of_list_ascii
    (pad 4 (year dt) ++ "-" :: pad 2 (month dt) ++ "-" :: pad 2 (day dt)
     ++ "T" :: pad 2 (hour dt) ++ ":" :: pad 2 (minute dt)
     ++ ":" :: pad 2 (second dt)
     ++ fraction_text (microsecond dt) ++ offset_text (utcoffset dt)).

Definition parse_fraction (cs : text) : option (N * text) :=
  match cs with
  | "." :: cs' =>
      match digits 6 0 cs' with
      | Some r => Some r
      | None => '(ms, rest) <- digits 3 0 cs' ;; Some (ms * 1000, rest)%N
      end
  | _ => Some (0%N, cs)
  end.

Definition parse_offset (cs : text) : option (option Z) :=
  match cs with
  | [] => Some None
  | s :: cs' =>
      sign <- (if Ascii.eqb s "+" then Some 1%Z
               else if Ascii.eqb s "-" then Some (-1)%Z else None) ;;
      '(h, cs1) <- digits 2 0 cs' ;;
      cs2 <- expect ":" cs1 ;;
      '(m, cs3) <- digits 2 0 cs2 ;;
      match cs3 with
      | [] => Some (Some (sign * (Z.of_N h * 60 + Z.of_N m))%Z)
      | _ :: _ => None
      end
  end.

(** [datetime.fromisoformat] on the shapes [isoformat] writes (a full
    date, any separator, [HH:MM:SS], an optional fraction of 3 or 6
    digits, an optional offset [+HH:MM]); [None] is Python's
    [ValueError]. Python 3.11 reads more shapes than these (a date
    alone, a time without seconds, [Z] for the offset): on those this
    function gives [None] where Python gives a value, so the statements
    below read it only on texts [isoformat] wrote or on texts no Python
    version reads. *)
Definition fromisoformat (s : string) : option datetime :=
  '(y, cs) <- digits 4 0 (str s) ;;
  cs <- expect "-" cs ;;
  '(mo, cs) <- digits 2 0 cs ;;
  cs <- expect "-" cs ;;
  '(d, cs) <- digits 2 0 cs ;;
  match cs with
  | [] => None
  | _ :: cs =>
      '(h, cs) <- digits 2 0 cs ;;
      cs <- expect ":" cs ;;
      '(mi, cs) <- digits 2 0 cs ;;
      cs <- expect ":" cs ;;
      '(se, cs) <- digits 2 0 cs ;;
      '(us, cs) <- parse_fraction cs ;;
      off <- parse_offset cs ;;
      let dt := mkDT y mo d h mi se us off in
      if wf_datetimeb dt then Some dt else None
  end.

End Iso.
Export Iso.

(** ** The persisted format: [json.dump(history, f, indent=2,
       ensure_ascii=False)] and [json.load(f)]

    The history is a Python list of dicts. The model keeps the part of JSON
    the file can hold under its layout: an array of flat objects whose
    members are integers or strings. A text with anything else in it (floats,
    booleans, null, nesting, a value at top level that is not an array) is
    unreadable for [json_load], as a text that is not JSON at all is.
    Python reads such a text and the methods go on with what it holds, so
    the statements below are about files in the layout and about blank
    files; on both, [json_load] and [json.load] agree. *)

Module Json.

#[local] Open Scope char_scope.

Inductive scalar := SInt (z : Z) | SStr (s : string).

(** A dict with string keys, in insertion order. *)
Definition pydict := list (string * scalar).

Fixpoint dict_get (d : pydict) (k : string) : option scalar :=
  match d with
  | [] => None
  | (k', v) :: d' => if String.eqb k k' then Some v else dict_get d' k
  end.

(** [d[k] = v]: an existing key keeps its place. *)
Fixpoint dict_set (d : pydict) (k : string) (v : scalar) : pydict :=
  match d with
  | [] => [(k, v)]
  | (k', v') :: d' =>
      if String.eqb k k' then (k', v) :: d' else (k', v') :: dict_set d' k v
  end.

(** [str(z)] for an int. *)
Definition py_str (z : Z) : string := NilZero.string_of_int (Z.to_int z).

(** *** Writing *)

Definition hex_char (d : N) : ascii :=
  if (d <? 10)%N then ascii_of_N (48 + d) else ascii_of_N (87 + d).

(** One character of a string literal ([ensure_ascii=False]): the quote,
    the backslash and the control characters are escaped, every other
    byte is written as it is. *)
Definition escape_char (c : ascii) : text :=
  if Ascii.eqb c "034" then ["\"; "034"]
  else if Ascii.eqb c "\" then ["\"; "\"]
  else if Ascii.eqb c "010" then ["\"; "n"]
  else if Ascii.eqb c "013" then ["\"; "r"]
  else if Ascii.eqb c "009" then ["\"; "t"]
  else if Ascii.eqb c "008" then ["\"; "b"]
  else if Ascii.eqb c "012" then ["\"; "f"]
  else if (N_of_ascii c <? 32)%N
       then ["\"; "u"; "0"; "0";
             hex_char (N_of_ascii c / 16); hex_char (N_of_ascii c mod 16)]
       else [c].

Definition dump_string (s : string) : text :=
  "034" :: flat_map escape_char (str s) ++ ["034"].

Definition dump_scalar (v : scalar) : text :=
  match v with
  | SInt z => str (py_str z)
  | SStr s => dump_string s
  end.

Definition nl : ascii := "010".

Definition spaces (n : nat) : text := repeat " " n.

(** [sep.join(parts)]. *)
Fixpoint join {A} (sep : list A) (parts : list (list A)) : list A :=
  match parts with
  | [] => []
  | [p] => p
  | p :: ps => p ++ sep ++ join sep ps
  end.

Definition dump_member (m : string * scalar) : text :=
  spaces 4 ++ dump_string (fst m) ++ ":" :: " " :: dump_scalar (snd m).

Definition dump_dict (d : pydict) : text :=
  match d with
  | [] => ["{"; "}"]
  | _ => "{" :: nl :: join ["," ; nl] (map dump_member d)
           ++ nl :: spaces 2 ++ ["}"]
  end.

(** The whole file, as [indent=2] lays it out. *)
Definition json_dump (history : list pydict) : text :=
  match history with
  | [] => ["["; "]"]
  | _ => "[" :: nl
           :: join ["," ; nl] (map (fun d => spaces 2 ++ dump_dict d) history)
           ++ [nl; "]"]
  end.

(** *** Reading: a lexer and a parser, each an automaton that takes one
    symbol per step *)

Inductive token :=
| TLBracket | TRBracket | TLBrace | TRBrace | TColon | TComma
| TInt (z : Z) | TStr (s : string).

Inductive lstate :=
| LIdle
| LNum (acc : text)
| LStr (acc : text)
| LEsc (acc : text)
| LUni (acc : text) (k : nat) (code : N).

Definition is_digit (c : ascii) : bool :=
  ((48 <=? N_of_ascii c) && (N_of_ascii c <=? 57))%N.

Definition is_ws (c : ascii) : bool :=
  Ascii.eqb c " " || Ascii.eqb c "010" || Ascii.eqb c "013"
  || Ascii.eqb c "009".

Definition hex_val (c : ascii) : option N :=
  let n := N_of_ascii c in
  if ((48 <=? n) && (n <=? 57))%N then Some (n - 48)%N
  else if ((97 <=? n) && (n <=? 102))%N then Some (n - 87)%N
  else if ((65 <=? n) && (n <=? 70))%N then Some (n - 55)%N
  else None.

(** The UTF-8 bytes of a code point of the basic plane, last byte first.
    (Surrogates, which Python pairs up, are refused.) *)
Definition utf8_rev (code : N) : option text :=
  if (code <? 128)%N then Some [ascii_of_N code]
  else if (code <? 2048)%N
  then Some [ascii_of_N (128 + code mod 64); ascii_of_N (192 + code / 64)]
  else if ((55296 <=? code) && (code <=? 57343))%N then None
  else Some [ascii_of_N (128 + code mod 64);
             ascii_of_N (128 + (code / 64) mod 64);
             ascii_of_N (224 + code / 4096)].

(** The integer a number token denotes. JSON has no leading zeros, so the
    token must be the canonical text of its value (or [-0]). *)
Definition finish_num (acc : text) : option token :=
  let s := string_of_list_ascii (rev acc) in
  d <- NilZero.int_of_string s ;;
  let z := Z.of_int d in
  if String.eqb (py_str z) s || String.eqb s "-0" then Some (TInt z)
  else None.

Definition idle_step (c : ascii) : option (list token * lstate) :=
  if is_ws c then Some ([], LIdle)
  else if Ascii.eqb c "[" then Some ([TLBracket], LIdle)
  else if Ascii.eqb c "]" then Some ([TRBracket], LIdle)
  else if Ascii.eqb c "{" then Some ([TLBrace], LIdle)
  else if Ascii.eqb c "}" then Some ([TRBrace], LIdle)
  else if Ascii.eqb c ":" then Some ([TColon], LIdle)
  else if Ascii.eqb c "," then Some ([TComma], LIdle)
  else if Ascii.eqb c "034" then Some ([], LStr [])
  else if Ascii.eqb c "-" || is_digit c then Some ([], LNum [c])
  else None.

Definition esc_step (acc : text) (c : ascii) : option (list token * lstate) :=
  if Ascii.eqb c "034" then Some ([], LStr ("034" :: acc))
  else if Ascii.eqb c "\" then Some ([], LStr ("\" :: acc))
  else if Ascii.eqb c "/" then Some ([], LStr ("/" :: acc))
  else if Ascii.eqb c "b" then Some ([], LStr ("008" :: acc))
  else if Ascii.eqb c "f" then Some ([], LStr ("012" :: acc))
  else if Ascii.eqb c "n" then Some ([], LStr ("010" :: acc))
  else if Ascii.eqb c "r" then Some ([], LStr ("013" :: acc))
  else if Ascii.eqb c "t" then Some ([], LStr ("009" :: acc))
  else if Ascii.eqb c "u" then Some ([], LUni acc 3 0%N)
  else None.

Definition lex_step (st : lstate) (c : ascii)
  : option (list token * lstate) :=
  match st with
  | LIdle => idle_step c
  | LNum acc =>
      if is_digit c then Some ([], LNum (c :: acc))
      else if Ascii.eqb c "." || Ascii.eqb c "e" || Ascii.eqb c "E"
      then None
      else
        t <- finish_num acc ;;
        '(ts, st') <- idle_step c ;;
        Some (t :: ts, st')
  | LStr acc =>
      if Ascii.eqb c "034"
      then Some ([TStr (string_of_list_ascii (rev acc))], LIdle)
      else if Ascii.eqb c "\" then Some ([], LEsc acc)
      else if (N_of_ascii c <? 32)%N then None
      else Some ([], LStr (c :: acc))
  | LEsc acc => esc_step acc c
  | LUni acc k code =>
      h <- hex_val c ;;
      let code' := (16 * code + h)%N in
      match k with
      | O => bs <- utf8_rev code' ;; Some ([], LStr (bs ++ acc))
      | S k' => Some ([], LUni acc k' code')
      end
  end.

Fixpoint lex_run (st : lstate) (cs : text) : option (list token * lstate) :=
  match cs with
  | [] => Some ([], st)
  | c :: cs' =>
      '(ts, st1) <- lex_step st c ;;
      '(ts', st2) <- lex_run st1 cs' ;;
      Some (ts ++ ts', st2)
  end.

Definition lex_end (st : lstate) : option (list token) :=
  match st with
  | LIdle => Some []
  | LNum acc => t <- finish_num acc ;; Some [t]
  | _ => None
  end.

Definition lex (cs : text) : option (list token) :=
  '(ts, st) <- lex_run LIdle cs ;;
  ts' <- lex_end st ;;
  Some (ts ++ ts').

(** The parser's state: the objects read so far (latest first) and,
    inside an object, its members so far. *)
Inductive pstate :=
| PStart
| PArrOpen                                   (* after [[]: [{] or []] *)
| PObjOpen (h : list pydict)                 (* after [{]: a key or [}] *)
| PKey (h : list pydict) (d : pydict) (k : string)   (* a key read: [:] *)
| PColon (h : list pydict) (d : pydict) (k : string) (* [:] read: a value *)
| PMember (h : list pydict) (d : pydict)     (* a member read: [,] or [}] *)
| PNextKey (h : list pydict) (d : pydict)    (* after [,]: a key *)
| PObjDone (h : list pydict)                 (* after [}]: [,] or []] *)
| PNextObj (h : list pydict)                 (* after [,]: [{] *)
| PEnd (h : list pydict).

Definition parse_step (st : pstate) (t : token) : option pstate :=
  match st, t with
  | PStart, TLBracket => Some PArrOpen
  | PArrOpen, TRBracket => Some (PEnd [])
  | PArrOpen, TLBrace => Some (PObjOpen [])
  | PObjOpen h, TRBrace => Some (PObjDone ([] :: h))
  | PObjOpen h, TStr k => Some (PKey h [] k)
  | PKey h d k, TColon => Some (PColon h d k)
  | PColon h d k, TInt z => Some (PMember h (dict_set d k (SInt z)))
  | PColon h d k, TStr s => Some (PMember h (dict_set d k (SStr s)))
  | PMember h d, TComma => Some (PNextKey h d)
  | PMember h d, TRBrace => Some (PObjDone (d :: h))
  | PNextKey h d, TStr k => Some (PKey h d k)
  | PObjDone h, TComma => Some (PNextObj h)
  | PObjDone h, TRBracket => Some (PEnd h)
  | PNextObj h, TLBrace => Some (PObjOpen h)
  | _, _ => None
  end.

Fixpoint parse_run (st : pstate) (ts : list token) : option pstate :=
  match ts with
  | [] => Some st
  | t :: ts' => st' <- parse_step st t ;; parse_run st' ts'
  end.

Definition parse (ts : list token) : option (list pydict) :=
  st <- parse_run PStart ts ;;
  match st with
  | PEnd h => Some (rev h)
  | _ => None
  end.

(** [json.load(f)]; [None] is the decode error. *)
Definition json_load (t : text) : option (list pydict) :=
  ts <- lex t ;; parse ts.

End Json.
Export Json.

(** ** The rating store: the methods that read and rewrite [ELO_FILE]

    The file system is the content of the one file, [None] while the file
    does not exist. Each method takes the clock reading it makes. *)

Module Store.

#[local] Open Scope string_scope.

Definition file := option text.

(** [{"elo": elo, "timestamp": now.isoformat()}]. *)
Definition new_entry (elo : scalar) (now : datetime) : pydict :=
  [("elo", elo); ("timestamp", SStr (isoformat now))].

(** An element of the persisted layout. *)
Definition entry (elo : Z) (timestamp : string) : pydict :=
  [("elo", SInt elo); ("timestamp", SStr timestamp)].

(** The tokens of the text of an element, and of a whole file of them. *)
Definition entry_tokens (e : Z * string) : list token :=
  [TLBrace; TStr "elo"; TColon; TInt (fst e); TComma;
   TStr "timestamp"; TColon; TStr (snd e); TRBrace].

Definition history_tokens (l : list (Z * string)) : list token :=
  match l with
  | [] => [TLBracket; TRBracket]
  | _ => TLBracket :: join [TComma] (map entry_tokens l) ++ [TRBracket]
  end.

Definition entries (l : list (Z * string)) : list pydict :=
  map (fun e => entry (fst e) (snd e)) l.

(** The text of one element inside the array. *)
Definition entry_text (e : Z * string) : text :=
  (spaces 2 ++ dump_dict (entry (fst e) (snd e)))%list.

(** The part of [__init__] that creates the file. *)
Definition init_elo_file (now : datetime) (f : file) : file :=
  match f with
  | None => Some (json_dump [new_entry (SInt 0) now])
  | Some t => Some t
  end.

(** [history[-1]['elo'] if history else 0]. *)
Definition last_elo (history : list pydict) : option scalar :=
  match history with
  | [] => Some (SInt 0)
  | e :: es => dict_get (last es e) "elo"
  end.

Definition reset_daily_stats (now : datetime) (f : file) : file :=
  match f with
  | None => None
  | Some t =>
      match (history <- json_load t ;;
             e <- last_elo history ;;
             Some (json_dump [new_entry e now])) with
      | Some t' => Some t'
      | None => Some t
      end
  end.

Definition save_elo_record (elo : Z) (now : datetime) (f : file) : file :=
  let data := new_entry (SInt elo) now in
  match f with
  | None => Some (json_dump ([] ++ [data]))
  | Some t =>
      match json_load t with
      | Some history => Some (json_dump (history ++ [data]))
      | None => Some t
      end
  end.

(** [datetime.datetime.fromisoformat(entry['timestamp']).date()]. *)
Definition entry_date (e : pydict) : option date :=
  v <- dict_get e "timestamp" ;;
  match v with
  | SStr s => dt <- fromisoformat s ;; Some (date_of dt)
  | SInt _ => None
  end.

(** [[entry for entry in history if keep(date of entry)]]; the first
    entry without a readable timestamp raises. *)
Fixpoint filter_by_date (keep : date -> bool) (history : list pydict)
  : option (list pydict) :=
  match history with
  | [] => Some []
  | e :: es =>
      d <- entry_date e ;;
      r <- filter_by_date keep es ;;
      Some (if keep d then e :: r else r)
  end.

Definition date_leb (a b : date) : bool :=
  (toordinal a <=? toordinal b)%Z.

Definition clean_old_elo_records (now : datetime) (f : file) : file :=
  match f with
  | None => None
  | Some t =>
      match (history <- json_load t ;;
             kept <- filter_by_date (date_leb (date_of now)) history ;;
             Some (json_dump kept)) with
      | Some t' => Some t'
      | None => Some t
      end
  end.

(** [while daily_records and daily_records[0]['elo'] == 0:
       daily_records.pop(0)]. *)
Fixpoint drop_leading_zeros (records : list pydict) : option (list pydict) :=
  match records with
  | [] => Some []
  | e :: es =>
      v <- dict_get e "elo" ;;
      match v with
      | SInt 0 => drop_leading_zeros es
      | _ => Some records
      end
  end.

(** [latest_elo - first_elo]; a string operand raises. *)
Definition py_sub (a b : scalar) : option Z :=
  match a, b with
  | SInt x, SInt y => Some (x - y)
  | _, _ => None
  end.

Definition daily_change_of (today : date) (history : list pydict)
  : option Z :=
  match history with
  | [] => Some 0
  | _ =>
      daily_records <- filter_by_date (date_eqb today) history ;;
      daily_records <- drop_leading_zeros daily_records ;;
      match daily_records with
      | [] | [_] => Some 0
      | e :: es =>
          first_elo <- dict_get e "elo" ;;
          latest_elo <- dict_get (last es e) "elo" ;;
          py_sub latest_elo first_elo
      end
  end.

Definition get_daily_elo_change (now : datetime) (f : file) : Z :=
  match f with
  | None => 0
  | Some t =>
      match (history <- json_load t ;;
             daily_change_of (date_of now) history) with
      | Some change => change
      | None => 0
      end
  end.

(** *** Snapshots: the well-formed entries of the data model *)

Record snapshot := mkSnap { rating : Z; taken : datetime }.

Definition entry_of (s : snapshot) : pydict :=
  new_entry (SInt (rating s)) (taken s).

Definition encode (s : snapshot) : Z * string :=
  (rating s, isoformat (taken s)).

(** The text the bot writes for a history of snapshots. *)
Definition write_history (h : list snapshot) : text :=
  json_dump (map entry_of h).

Definition snapshot_of (e : pydict) : option snapshot :=
  v <- dict_get e "elo" ;;
  ts <- dict_get e "timestamp" ;;
  match v, ts with
  | SInt r, SStr s => dt <- fromisoformat s ;; Some (mkSnap r dt)
  | _, _ => None
  end.

Fixpoint snapshots_of (es : list pydict) : option (list snapshot) :=
  match es with
  | [] => Some []
  | e :: es' =>
      s <- snapshot_of e ;; r <- snapshots_of es' ;; Some (s :: r)
  end.

(** Reading a file back as snapshots: every element must give an
    integer ["elo"] and an ISO-8601 ["timestamp"]. *)
Definition read_history (t : text) : option (list snapshot) :=
  es <- json_load t ;; snapshots_of es.

Definition wf_snapshot (s : snapshot) : Prop :=
  wf_datetimeb (taken s) = true.

(** *** The daily delta in the words of the data model *)

(** The snapshots recorded on the day [today]. *)
Definition same_day (today : date) (h : list snapshot) : list snapshot :=
  filter (fun s => date_eqb today (date_of (taken s))) h.

(** [latest - first], 0 when fewer than two snapshots qualify. *)
Definition latest_minus_first (q : list snapshot) : Z :=
  match q with
  | [] | [_] => 0
  | s :: r => rating (last r s) - rating s
  end.

(** The zero-rated snapshots at the head of the list are discarded, up
    to the first snapshot with another rating. *)
Fixpoint drop_zero_prefix (q : list snapshot) : list snapshot :=
  match q with
  | [] => []
  | s :: r => if (rating s =? 0)%Z then drop_zero_prefix r else q
  end.

Definition daily_delta (today : date) (h : list snapshot) : Z :=
  latest_minus_first (drop_zero_prefix (same_day today h)).



End Store.
Export Store.

(** ** The FACEIT client

    The two endpoints are inputs: what [requests.get] gave for each call. *)

Module Faceit.

#[local] Open Scope string_scope.

(** What a call to [requests.get] followed by [response.json()] gives:
    [RequestError] is a raised [requests.RequestException] (timeout,
    connection error); in [Response], [None] for the body is a payload
    that does not decode. *)
Inductive http_result (A : Type) :=
| RequestError
| Response (status_code : Z) (body : option A).
Arguments RequestError {A}.
Arguments Response {A} status_code body.

(** A record of the match history: [match.get("status")], the rosters of
    [match.get("teams", {})] as the [player_id] of each player in
    [team_data.get("players", [])], and
    [match.get("results", {}).get("winner")]. *)
Record match_record := mkMatch {
  status : option string;
  teams : list (string * list (option string));
  winner : option string
}.

Inductive outcome := win | loss | unknown.

(** Python's truth value of [None] or a string. *)
Definition truthy (v : option string) : bool :=
  match v with
  | None => false
  | Some s => negb (String.eqb s EmptyString)
  end.

Definition str_opt_eqb (a b : option string) : bool :=
  match a, b with
  | Some x, Some y => String.eqb x y
  | None, None => true
  | _, _ => false
  end.

(** The inner loop: does some [p] have [p.get("player_id") == player_id]. *)
Definition in_roster (players : list (option string)) (player_id : string)
  : bool :=
  existsb (fun p => str_opt_eqb p (Some player_id)) players.

(** The outer loop over [teams.items()], with the value [player_team]
    has on entry. *)
Fixpoint find_player_team (ts : list (string * list (option string)))
    (player_id : string) (player_team : option string) : option string :=
  match ts with
  | [] => player_team
  | (faction, players) :: rest =>
      let player_team :=
        if in_roster players player_id then Some faction else player_team in
      if truthy player_team then player_team
      else find_player_team rest player_id player_team
  end.

Definition _analyze_match (m : match_record) (player_id : string) : outcome :=
  if negb (str_opt_eqb (status m) (Some "finished")) then unknown
  else
    let player_team := find_player_team (teams m) player_id None in
    if negb (truthy player_team) then unknown
    else if negb (truthy (winner m)) then unknown
    else if str_opt_eqb player_team (winner m) then win else loss.

(** The counting loop of [_get_daily_matches]. *)
Fixpoint count_matches (matches : list match_record) (player_id : string)
    (wins losses : Z) : Z * Z :=
  match matches with
  | [] => (wins, losses)
  | m :: rest =>
      match _analyze_match m player_id with
      | win => count_matches rest player_id (wins + 1) losses
      | loss => count_matches rest player_id wins (losses + 1)
      | unknown => count_matches rest player_id wins losses
      end
  end.

Definition _get_daily_matches (r : http_result (list match_record))
    (player_id : string) : Z * Z :=
  match r with
  | RequestError => (0, 0)
  | Response code body =>
      if negb (code =? 200)%Z then (0, 0)
      else match body with
           | None => (0, 0)
           | Some matches => count_matches matches player_id 0 0
           end
  end.

(** The player payload: [player_data.get('player_id')] and what the
    path [games.cs2.faceit_elo] holds. In [mkPlayer] the path can be
    walked: [faceit_elo] is the integer at its end (the function is
    annotated [Dict[str, int]]), [None] where a key of the path is
    missing, so that the defaults [{}] and [0] of the [.get] calls apply.
    In [mkPlayerNoGames] the value at [games] or at [cs2] is there and is
    not an object (JSON [null], for one): the [.get] on it raises
    [AttributeError]. *)
Inductive player_data :=
| mkPlayer (player_id : option string) (faceit_elo : option Z)
| mkPlayerNoGames (player_id : option string).

Definition player_id (data : player_data) : option string :=
  match data with
  | mkPlayer id _ => id
  | mkPlayerNoGames id => id
  end.

Record stats := mkStats { Elo : Z; Win : Z; Lose : Z }.

Definition _get_empty_stats : stats := mkStats 0 0 0.

Definition get_faceit_stats (players : http_result player_data)
    (history : http_result (list match_record)) : stats :=
  match players with
  | RequestError => _get_empty_stats
  | Response code body =>
      if negb (code =? 200)%Z then _get_empty_stats
      else
        match body with
        | None => _get_empty_stats
        | Some data =>
            if negb (truthy (player_id data)) then _get_empty_stats
            else
              match player_id data with
              | None => _get_empty_stats
              | Some id =>
                  match data with
                  | mkPlayerNoGames _ =>
                      (* AttributeError, caught by [except Exception]
                         before the history is requested *)
                      _get_empty_stats
                  | mkPlayer _ faceit_elo =>
                      let elo := match faceit_elo with
                                 | Some e => e
                                 | None => 0
                                 end in
                      let '(wins, losses) :=
                        _get_daily_matches history id in
                      mkStats elo wins losses
                  end
              end
        end
  end.

(** *** The classification and the failures in the words of the
    specification *)






(** A request that gave no payload: an exception, a status other than
    200, or a body that does not decode. *)
Definition request_failed {A} (r : http_result A) : bool :=
  match r with
  | RequestError => true
  | Response code body =>
      negb (code =? 200)%Z
      || match body with None => true | Some _ => false end
  end.

(** The player lookup failed: the request did, or the payload has no
    player id. *)
Definition lookup_failed (players : http_result player_data) : bool :=
  match players with
  | Response code (Some data) =>
      negb (code =? 200)%Z || negb (truthy (player_id data))
  | _ => true
  end.

End Faceit.
Export Faceit.

(** ** The daily reset scheduler *)

Module Scheduler.





End Scheduler.
Export Scheduler.

(** ** The [!elo] dispatcher and its background thread

    The read loop calls [_handle_elo_command]; the thread it starts runs
    [_process_elo] one statement per step, so that commands can arrive
    between two statements. *)

Module Bot.

(** [self.elo_cooldown = 5] seconds. *)
Definition elo_cooldown : Z := 5 * 1000000.

(** The statement of [_process_elo] a thread is at, with the locals it
    has assigned. *)
Inductive pc :=
| pc_fetch                                   (* stats = self.get_faceit_stats(..) *)
| pc_change (s : stats)                      (* daily_change = self.get_daily_elo_change() *)
| pc_save (s : stats) (daily_change : Z)     (* if stats['Elo'] > 0: self.save_elo_record(..) *)
| pc_send (s : stats) (daily_change : Z)     (* self.send_message(response) *)
| pc_stamp                                   (* self.last_elo_time = time.time() *)
| pc_done.

Record thread := mkThread { username : string; at_pc : pc }.

Definition is_alive (t : thread) : bool :=
  match at_pc t with
  | pc_done => false
  | _ => true
  end.

(** The effects a thread has had, in the order they happened. *)
Inductive event :=
| EvFetch (s : stats)
| EvChange (daily_change : Z)
| EvSave (elo : Z)
| EvSend (line : string)
| EvStamp (t : Z).

Record bot := mkBot {
  CHANNEL : string;
  last_elo_time : Z;
  pending_elo_thread : option nat;   (* index into [threads] *)
  threads : list thread;             (* every thread started so far *)
  ELO_FILE : file;
  irc : list string;                 (* the lines given to [irc.send] *)
  events : list event
}.

Definition initial (channel : string) (f : file) : bot :=
  mkBot channel 0 None [] f [] [].

(** [self.pending_elo_thread and self.pending_elo_thread.is_alive()]. *)
Definition pending_alive (b : bot) : bool :=
  match pending_elo_thread b with
  | None => false
  | Some i =>
      match nth_error (threads b) i with
      | Some t => is_alive t
      | None => false
      end
  end.

Definition spawn (user : string) (b : bot) : bot :=
  mkBot (CHANNEL b) (last_elo_time b)
        (Some (List.length (threads b)))
        (threads b ++ [mkThread user pc_fetch])%list
        (ELO_FILE b) (irc b) (events b).

Definition _handle_elo_command (user : string) (current_time : Z) (b : bot)
  : bot :=
  if current_time - last_elo_time b <? elo_cooldown then b
  else if pending_alive b then b
  else spawn user b.

(** [f"+{daily_change}" if daily_change > 0 else str(daily_change)]. *)
Definition change_str (daily_change : Z) : string :=
  if 0 <? daily_change then ("+" ++ py_str daily_change)%string
  else py_str daily_change.

Definition response (user : string) (s : stats) (daily_change : Z) : string :=
  ("@" ++ user ++ " → Elo: " ++ py_str (Elo s)
       ++ " | Win: " ++ py_str (Win s)
       ++ " | Lose: " ++ py_str (Lose s)
       ++ " | " ++ change_str daily_change)%string.

Definition crlf : string := String "013"%char (String "010"%char EmptyString).

(** The line [send_message] gives to the socket. *)
Definition privmsg (channel message : string) : string :=
  ("PRIVMSG #" ++ channel ++ " :" ++ message ++ crlf)%string.

(** What a statement reads from outside: the two API answers, the
    clock in the configured zone and [time.time()]. *)
Record world := mkWorld {
  w_players : http_result player_data;
  w_history : http_result (list match_record);
  w_now : datetime;
  w_time : Z
}.

Fixpoint set_nth {A} (i : nat) (x : A) (l : list A) : list A :=
  match l, i with
  | [], _ => []
  | _ :: l', O => x :: l'
  | y :: l', S i' => y :: set_nth i' x l'
  end.

Definition goto (i : nat) (user : string) (p : pc) (b : bot) : list thread :=
  set_nth i (mkThread user p) (threads b).

(** Thread [i] runs its next statement. *)
Definition thread_step (i : nat) (w : world) (b : bot) : bot :=
  match nth_error (threads b) i with
  | None => b
  | Some t =>
      let user := username t in
      match at_pc t with
      | pc_fetch =>
          let s := get_faceit_stats (w_players w) (w_history w) in
          mkBot (CHANNEL b) (last_elo_time b) (pending_elo_thread b)
                (goto i user (pc_change s) b)
                (ELO_FILE b) (irc b) (events b ++ [EvFetch s])%list
      | pc_change s =>
          let daily_change := get_daily_elo_change (w_now w) (ELO_FILE b) in
          mkBot (CHANNEL b) (last_elo_time b) (pending_elo_thread b)
                (goto i user (pc_save s daily_change) b)
                (ELO_FILE b) (irc b) (events b ++ [EvChange daily_change])%list
      | pc_save s daily_change =>
          if 0 <? Elo s
          then mkBot (CHANNEL b) (last_elo_time b) (pending_elo_thread b)
                     (goto i user (pc_send s daily_change) b)
                     (save_elo_record (Elo s) (w_now w) (ELO_FILE b))
                     (irc b) (events b ++ [EvSave (Elo s)])%list
          else mkBot (CHANNEL b) (last_elo_time b) (pending_elo_thread b)
                     (goto i user (pc_send s daily_change) b)
                     (ELO_FILE b) (irc b) (events b)
      | pc_send s daily_change =>
          let line := privmsg (CHANNEL b) (response user s daily_change) in
          mkBot (CHANNEL b) (last_elo_time b) (pending_elo_thread b)
                (goto i user pc_stamp b)
                (ELO_FILE b) (irc b ++ [line])%list (events b ++ [EvSend line])%list
      | pc_stamp =>
          mkBot (CHANNEL b) (w_time w) (pending_elo_thread b)
                (goto i user pc_done b)
                (ELO_FILE b) (irc b) (events b ++ [EvStamp (w_time w)])%list
      | pc_done => b
      end
  end.

(** [_process_elo] from its first statement to its last, with the
    reading each statement makes and nothing running in between. *)
Definition _process_elo (i : nat) (w1 w2 w3 w4 w5 : world) (b : bot) : bot :=
  thread_step i w5
    (thread_step i w4 (thread_step i w3 (thread_step i w2
      (thread_step i w1 b)))).


Definition set_file (f : file) (b : bot) : bot :=
  mkBot (CHANNEL b) (last_elo_time b) (pending_elo_thread b) (threads b)
        f (irc b) (events b).

(** One move of the process: a command from the read loop, a statement
    of a thread, the reset timer, or the clean-up on connection. A store
    method is one move here: it reads and rewrites the file without
    another thread in between. The code takes no lock, so a run where
    two of them overlap is outside this relation; the statements proved
    over it are about the threads and the lines sent, not about what
    the file holds. *)
Inductive step (b : bot) : bot -> Prop :=
| step_command user t : step b (_handle_elo_command user t b)
| step_thread i w : step b (thread_step i w b)
| step_reset now :
    step b (set_file (reset_daily_stats now (ELO_FILE b)) b)
| step_clean now :
    step b (set_file (clean_old_elo_records now (ELO_FILE b)) b).

Inductive reachable (channel : string) (f : file) : bot -> Prop :=
| reach_init now : reachable channel f (initial channel (init_elo_file now f))
| reach_step b b' : reachable channel f b -> step b b' -> reachable channel f b'.

Definition alive_count (b : bot) : nat :=
  List.length (filter is_alive (threads b)).

(** The invariant of the dispatcher: a thread that has not finished is
    the one [pending_elo_thread] refers to. *)
Definition in_flight_is_pending (b : bot) : Prop :=
  forall i t,
    nth_error (threads b) i = Some t -> is_alive t = true ->
    pending_elo_thread b = Some i.

End Bot.
Export Bot.

(** ** Sample values, for the concrete instances of the statements *)

Module Sample.

Definition at_14 : datetime := mkDT 2024 3 9 14 5 7 123456 (Some 120).
Definition at_15 : datetime := mkDT 2024 3 9 15 5 7 0 (Some 120).
Definition at_16 : datetime := mkDT 2024 3 9 16 5 7 0 (Some 120).

Definition rated_1520 : http_result player_data :=
  Response 200 (Some (mkPlayer (Some "p1"%string) (Some 1520))).

Definition no_matches : http_result (list match_record) :=
  Response 200 (Some []).

(** The readings of a thread that sees a rating of 1520 at 15:05. *)
Definition world_1520 : world :=
  mkWorld rated_1520 no_matches at_15 1700000002000000.

(** A bot whose file holds one snapshot, 1500 at 14:05. *)
Definition bot_1500 : bot :=
  initial "chan" (Some (write_history [mkSnap 1500 at_14])).

End Sample.

(** ** Further vocabulary for the store, the client and the scheduler *)

Module More.

(** [save_elo_record] called once for each rating, in order, each with the
    clock it reads. *)
Definition save_all (rs : list (Z * datetime)) (f : file) : file :=
  fold_left (fun f p => save_elo_record (fst p) (snd p) f) rs f.

Definition snaps (rs : list (Z * datetime)) : list snapshot :=
  map (fun p => mkSnap (fst p) (snd p)) rs.






(** An element without a timestamp Python could read: the key is missing,
    the value is a number, or the string does not start with the four
    digits of a year. *)
Definition no_timestamp (e : pydict) : Prop :=
  match dict_get e "timestamp" with
  | None => True
  | Some (SInt _) => True
  | Some (SStr s) => digits 4 0 (str s) = None
  end.



(** No carriage return and no line feed in the text. *)
Definition one_line (s : string) : Prop :=
  Forall (fun c => c <> "013"%char /\ c <> "010"%char) (str s).

(** A thread that has given its reply line to the socket. *)
Definition has_sent (t : thread) : bool :=
  match at_pc t with
  | pc_stamp | pc_done => true
  | _ => false
  end.

End More.
Export More.

(** ** The Twitch application token *)

Module Token.

(** The payload of the token endpoint: [data['access_token']] and
    [data['expires_in']] (seconds), [None] where the key is missing. *)
Record token_payload := mkToken {
  access_token : option string;
  expires_in : option Z
}.

Record token_state := mkTokenState {
  TWITCH_APP_TOKEN : option string;
  TOKEN_EXPIRES_AT : Z               (* a reading of [time.time()] *)
}.

(** The state [__init__] sets. *)
Definition no_token : token_state := mkTokenState None 0.

(** [response.raise_for_status()] raises on a status from 400 to 599. *)
Definition raises_for_status (code : Z) : bool :=
  (400 <=? code) && (code <? 600).

(** [refresh_twitch_token]; [now] is the clock read when the expiry is
    computed. The token is assigned before the expiry is looked up. *)
Definition refresh_twitch_token (r : http_result token_payload) (now : Z)
    (st : token_state) : token_state :=
  match r with
  | RequestError => st
  | Response code body =>
      if raises_for_status code then st
      else
        match body with
        | None => st
        | Some data =>
            match access_token data with
            | None => st
            | Some tok =>
                match expires_in data with
                | None => mkTokenState (Some tok) (TOKEN_EXPIRES_AT st)
                | Some e =>
                    mkTokenState (Some tok)
                                 (now + e * 1000000 - 60 * 1000000)
                end
            end
        end
  end.

(** [ensure_twitch_token]; [now1] is the clock of the test, [r] and [now2]
    what the refresh gets if it is called. *)
Definition ensure_twitch_token (now1 : Z) (r : http_result token_payload)
    (now2 : Z) (st : token_state) : token_state :=
  if negb (truthy (TWITCH_APP_TOKEN st)) || (TOKEN_EXPIRES_AT st <=? now1)
  then refresh_twitch_token r now2 st
  else st.

End Token.
Export Token.

(** ** The read loop: from a chunk of the socket to a command

    A chunk is the [str] that [recv(2048).decode('utf-8', errors='ignore')]
    gives, as the bytes of its UTF-8 text. The separators the code looks
    for are ASCII, so they are found at the same places in the bytes as in
    the code points. *)

Module Irc.

#[local] Open Scope char_scope.

(** [s.startswith(needle)]. *)
Fixpoint starts_with (needle s : text) : bool :=
  match needle, s with
  | [], _ => true
  | c :: needle', d :: s' => Ascii.eqb c d && starts_with needle' s'
  | _ :: _, [] => false
  end.

(** [needle in s]. *)
Fixpoint contains (needle s : text) : bool :=
  starts_with needle s
  || match s with
     | [] => false
     | _ :: s' => contains needle s'
     end.

(** [s.split(needle, 1)] for a needle that is not empty: the part before
    the first occurrence and, when there is one, the part after it. *)
Fixpoint split1 (needle s : text) : text * option text :=
  if starts_with needle s
  then ([], Some (skipn (List.length needle) s))
  else match s with
       | [] => ([], None)
       | c :: s' => let (a, b) := split1 needle s' in (c :: a, b)
       end.

(** A byte that continues a code point of several bytes. *)
Definition is_continuation (c : ascii) : bool :=
  ((128 <=? N_of_ascii c) && (N_of_ascii c <? 192))%N.

Fixpoint drop_continuation (s : text) : text :=
  match s with
  | c :: s' => if is_continuation c then drop_continuation s' else s
  | [] => []
  end.

(** [s[1:]]: the text without its first code point. *)
Definition tail1 (s : text) : text :=
  match s with
  | [] => []
  | _ :: s' => drop_continuation s'
  end.

(** The white space of [str.strip()]: U+0009 to U+000D, U+001C to U+001F
    and U+0020 in one byte; U+0085 and U+00A0 in two; U+1680, U+2000 to
    U+200A, U+2028, U+2029, U+202F, U+205F and U+3000 in three. *)
Definition space1 (c : ascii) : bool :=
  let n := N_of_ascii c in
  (((9 <=? n) && (n <=? 13)) || ((28 <=? n) && (n <=? 32)))%N.

Definition space2 (c1 c2 : ascii) : bool :=
  ((N_of_ascii c1 =? 194)
   && ((N_of_ascii c2 =? 133) || (N_of_ascii c2 =? 160)))%N.

Definition space3 (c1 c2 c3 : ascii) : bool :=
  let a := N_of_ascii c1 in
  let b := N_of_ascii c2 in
  let c := N_of_ascii c3 in
  (((a =? 225) && (b =? 154) && (c =? 128))
   || ((a =? 226) && (b =? 128)
       && (((128 <=? c) && (c <=? 138)) || (c =? 168) || (c =? 169)
           || (c =? 175)))
   || ((a =? 226) && (b =? 129) && (c =? 159))
   || ((a =? 227) && (b =? 128) && (c =? 128)))%N.

(** [s.lstrip()]. *)
Fixpoint lstrip (s : text) : text :=
  match s with
  | [] => []
  | c1 :: s1 =>
      if space1 c1 then lstrip s1
      else
        match s1 with
        | [] => s
        | c2 :: s2 =>
            if space2 c1 c2 then lstrip s2
            else
              match s2 with
              | [] => s
              | c3 :: s3 => if space3 c1 c2 c3 then lstrip s3 else s
              end
        end
  end.

(** [s.rstrip()], on the text read from its end. *)
Fixpoint rstrip_rev (r : text) : text :=
  match r with
  | [] => []
  | c1 :: r1 =>
      if space1 c1 then rstrip_rev r1
      else
        match r1 with
        | [] => r
        | c2 :: r2 =>
            if space2 c2 c1 then rstrip_rev r2
            else
              match r2 with
              | [] => r
              | c3 :: r3 => if space3 c3 c2 c1 then rstrip_rev r3 else r
              end
        end
  end.

Definition rstrip (s : text) : text := rev (rstrip_rev (rev s)).

(** [s.strip()]. *)
Definition py_strip (s : text) : text := rstrip (lstrip s).

Definition lower1 (c : ascii) : ascii :=
  let n := N_of_ascii c in
  if ((65 <=? n) && (n <=? 90))%N then ascii_of_N (n + 32) else c.

Definition is_kelvin (c1 c2 c3 : ascii) : bool :=
  ((N_of_ascii c1 =? 226) && (N_of_ascii c2 =? 132)
   && (N_of_ascii c3 =? 170))%N.

(** [s.lower()], as far as a comparison with ASCII text can tell: the
    letters A to Z and the KELVIN SIGN (U+212A) become ASCII letters; every
    other code point outside ASCII lowers to code points outside ASCII,
    and is kept here as it is. *)
Fixpoint py_lower (s : text) : text :=
  match s with
  | [] => []
  | c1 :: s1 =>
      match s1 with
      | c2 :: c3 :: s3 =>
          if is_kelvin c1 c2 c3 then "k" :: py_lower s3
          else lower1 c1 :: py_lower s1
      | _ => lower1 c1 :: py_lower s1
      end
  end.

Fixpoint text_eqb (a b : text) : bool :=
  match a, b with
  | [], [] => true
  | c :: a', d :: b' => Ascii.eqb c d && text_eqb a' b'
  | _, _ => false
  end.

(** The handler [handle_command] calls. *)
Inductive command := cmd_elo | cmd_checkelo | cmd_debug | cmd_testapi.

Definition command_text (c : command) : text :=
  match c with
  | cmd_elo => str "!elo"
  | cmd_checkelo => str "!checkelo"
  | cmd_debug => str "!debug"
  | cmd_testapi => str "!testapi"
  end.

(** [handle_command]: which handler runs, if any. *)
Definition handle_command (message : text) : option command :=
  let message := py_strip (py_lower message) in
  if text_eqb message (str "!elo") then Some cmd_elo
  else if text_eqb message (str "!checkelo") then Some cmd_checkelo
  else if text_eqb message (str "!debug") then Some cmd_debug
  else if text_eqb message (str "!testapi") then Some cmd_testapi
  else None.

(** [_parse_message] up to its call of [handle_command]: the user name
    and the message, [None] where an index is out of range. *)
Definition _parse_message (response : text) : option (text * text) :=
  let username := tail1 (fst (split1 (str "!") response)) in
  rest <- snd (split1 (str "PRIVMSG") response) ;;
  message <- snd (split1 (str ":") rest) ;;
  Some (username, py_strip message).

(** What one turn of the inner loop of [run] does with a chunk. *)
Inductive reaction :=
| do_reconnect                                   (* [self._reconnect()] *)
| do_pong                                        (* [irc.send("PONG\r\n")] *)
| do_command (username : text) (c : command)     (* a handler runs *)
| do_nothing.

Definition on_receive (response : text) : reaction :=
  match response with
  | [] => do_reconnect
  | _ =>
      if starts_with (str "PING") response then do_pong
      else if contains (str "PRIVMSG") response
      then match _parse_message response with
           | Some (username, message) =>
               match handle_command message with
               | Some c => do_command username c
               | None => do_nothing
               end
           | None => do_nothing
           end
      else do_nothing
  end.

(** The line Twitch sends for a chat message. *)
Definition chat_line (nick channel message : text) : text :=
  (str ":" ++ nick ++ str "!" ++ nick ++ str "@" ++ nick
   ++ str ".tmi.twitch.tv PRIVMSG #" ++ channel ++ str " :" ++ message
   ++ ["013"; "010"])%list.

(** A character of a Twitch login: a lower-case letter, a digit or the
    underscore. *)
Definition login_char (c : ascii) : bool :=
  let n := N_of_ascii c in
  (((97 <=? n) && (n <=? 122)) || ((48 <=? n) && (n <=? 57)) || (n =? 95))%N.

(** An ASCII character that is not white space. *)
Definition plain (c : ascii) : bool :=
  (N_of_ascii c <? 128)%N && negb (space1 c).

End Irc.
Export Irc.

(** * Proofs *)

(** ** The ISO-8601 text of a timestamp reads back *)

Section IsoRoundTrip.

Lemma digit_val_char d : (d < 10)%N -> digit_val (digit_char d) = Some d.
Proof.
  intros H.
  assert (E : (d = 0 \/ d = 1 \/ d = 2 \/ d = 3 \/ d = 4 \/ d = 5 \/ d = 6
               \/ d = 7 \/ d = 8 \/ d = 9)%N) by lia.
  repeat (destruct E as [-> | E]; [reflexivity |]).
  subst d. reflexivity.
Qed.

Lemma digits_pad_gen k : forall n acc rest j,
  (n < 10 ^ N.of_nat k)%N ->
  digits (k + j) acc (pad k n ++ rest)
  = digits j (acc * 10 ^ N.of_nat k + n)%N rest.
Proof.
  induction k as [|k IH]; intros n acc rest j Hn.
  - simpl in *. f_equal. lia.
  - cbn [pad]. rewrite <- app_assoc. cbn [app].
    replace (S k + j)%nat with (k + S j)%nat by lia.
    assert (H10 : (10 ^ N.of_nat (S k) = 10 * 10 ^ N.of_nat k)%N).
    { rewrite Nat2N.inj_succ, N.pow_succ_r'. reflexivity. }
    rewrite IH.
    + cbn [digits]. rewrite digit_val_char by (apply N.mod_lt; lia).
      f_equal. rewrite H10.
      pose proof (N.div_mod n 10). lia.
    + rewrite H10 in Hn.
      apply N.Div0.div_lt_upper_bound. lia.
Qed.

Lemma digits_pad k n rest :
  (n < 10 ^ N.of_nat k)%N ->
  digits k 0 (pad k n ++ rest) = Some (n, rest).
Proof.
  intros H. pose proof (digits_pad_gen k n 0%N rest 0%nat H) as E.
  rewrite Nat.add_0_r in E. rewrite E. reflexivity.
Qed.


Lemma wf_datetime_fields dt :
  wf_datetimeb dt = true ->
  (1 <= year dt <= 9999 /\ 1 <= month dt <= 12 /\
   1 <= day dt <= days_in_month (year dt) (month dt) /\
   hour dt < 24 /\ minute dt < 60 /\ second dt < 60 /\
   microsecond dt < 1000000)%N /\ wf_offsetb (utcoffset dt) = true.
Proof.
  unfold wf_datetimeb, wf_dateb, date_of. cbn [d_year d_month d_day].
  rewrite !andb_true_iff, !N.leb_le, !N.ltb_lt. tauto.
Qed.

Lemma days_in_month_le y m : (days_in_month y m <= 31)%N.
Proof.
  unfold days_in_month.
  destruct (is_leap y);
    repeat match goal with
           | |- context [match ?x with _ => _ end] => destruct x
           end; lia.
Qed.

Lemma parse_offset_text o :
  wf_offsetb o = true -> parse_offset (offset_text o) = Some o.
Proof.
  destruct o as [m|]; [|reflexivity].
  cbn [wf_offsetb offset_text]. rewrite andb_true_iff, !Z.ltb_lt.
  intros [Hlo Hhi].
  assert (Hq : 0 <= Z.abs m / 60 < 24).
  { split; [apply Z.div_pos; lia|apply Z.div_lt_upper_bound; lia]. }
  pose proof (Z.mod_pos_bound (Z.abs m) 60 ltac:(lia)) as Hr.
  pose proof (Z.div_mod (Z.abs m) 60 ltac:(lia)) as Hdm.
  assert (E : parse_offset
                ((if m <? 0 then "-"%char else "+"%char)
                   :: pad 2 (Z.to_N (Z.abs m / 60))
                   ++ ":"%char :: pad 2 (Z.to_N (Z.abs m mod 60)) ++ [])
              = Some (Some m)).
  { unfold parse_offset.
    destruct (Z.ltb_spec m 0) as [Hneg|Hpos]; cbn [Ascii.eqb Bool.eqb];
      (rewrite digits_pad by (cbn; lia); cbn [expect Ascii.eqb Bool.eqb];
       rewrite digits_pad by (cbn; lia));
      rewrite !Z2N.id by lia; do 2 f_equal; lia. }
  rewrite List.app_nil_r in E. exact E.
Qed.

(** [fromisoformat] reads back what [isoformat] wrote. *)
Lemma fromisoformat_isoformat dt :
  wf_datetimeb dt = true -> fromisoformat (isoformat dt) = Some dt.
Proof.
  intros Hwf. pose proof (wf_datetime_fields dt Hwf) as [HF Hoff].
  pose proof (days_in_month_le (year dt) (month dt)) as Hdim.
  destruct dt as [y mo d h mi se us off]. cbn [year month day hour minute
    second microsecond utcoffset] in *.
  unfold fromisoformat, isoformat, str.
  rewrite list_ascii_of_string_of_list_ascii.
  cbn [year month day hour minute second microsecond utcoffset].
  rewrite digits_pad by (cbn; lia). cbn [expect Ascii.eqb Bool.eqb].
  rewrite digits_pad by (cbn; lia). cbn [expect Ascii.eqb Bool.eqb].
  rewrite digits_pad by (cbn; lia).
  rewrite digits_pad by (cbn; lia). cbn [expect Ascii.eqb Bool.eqb].
  rewrite digits_pad by (cbn; lia). cbn [expect Ascii.eqb Bool.eqb].
  rewrite digits_pad by (cbn; lia).
  assert (E : parse_fraction (fraction_text us ++ offset_text off)
              = Some (us, offset_text off)).
  { unfold fraction_text. destruct (N.eqb_spec us 0) as [->|Hus].
    - cbn [app]. destruct off as [m|]; [|reflexivity].
      cbn [offset_text]. destruct (m <? 0); reflexivity.
    - cbn [app parse_fraction]. rewrite digits_pad by (cbn; lia).
      reflexivity. }
  rewrite E, (parse_offset_text off Hoff), Hwf. reflexivity.
Qed.

End IsoRoundTrip.

Section LexerFacts.

Lemma lex_run_app st a b :
  lex_run st (a ++ b)
  = match lex_run st a with
    | Some (t1, s1) =>
        match lex_run s1 b with
        | Some (t2, s2) => Some (t1 ++ t2, s2)
        | None => None
        end
    | None => None
    end.
Proof.
  revert st. induction a as [|c a IH]; intros st; cbn [app lex_run].
  - destruct (lex_run st b) as [[t2 s2]|]; reflexivity.
  - destruct (lex_step st c) as [[ts s1]|]; [|reflexivity].
    rewrite IH. destruct (lex_run s1 a) as [[t1 s1']|]; [|reflexivity].
    destruct (lex_run s1' b) as [[t2 s2]|]; [|reflexivity].
    rewrite app_assoc. reflexivity.
Qed.

Lemma lex_run_seq st a b t1 s1 t2 s2 :
  lex_run st a = Some (t1, s1) ->
  lex_run s1 b = Some (t2, s2) ->
  lex_run st (a ++ b) = Some (t1 ++ t2, s2).
Proof. intros Ha Hb. rewrite lex_run_app, Ha, Hb. reflexivity. Qed.

Lemma lex_run_cons st c b t1 s1 t2 s2 :
  lex_step st c = Some (t1, s1) ->
  lex_run s1 b = Some (t2, s2) ->
  lex_run st (c :: b) = Some (t1 ++ t2, s2).
Proof. intros Ha Hb. cbn [lex_run]. rewrite Ha, Hb. reflexivity. Qed.

(** An escaped character is read back as the character. *)
Lemma lex_run_escape_char c acc :
  lex_run (LStr acc) (escape_char c) = Some ([], LStr (c :: acc)).
Proof.
  destruct c as [b0 b1 b2 b3 b4 b5 b6 b7].
  destruct b0, b1, b2, b3, b4, b5, b6, b7; reflexivity.
Qed.

Lemma lex_run_escape cs : forall acc,
  lex_run (LStr acc) (flat_map escape_char cs)
  = Some ([], LStr (List.rev cs ++ acc)).
Proof.
  induction cs as [|c cs IH]; intros acc; [reflexivity|].
  cbn [flat_map List.rev].
  erewrite lex_run_seq; [|apply lex_run_escape_char|apply IH].
  rewrite <- app_assoc. reflexivity.
Qed.

Lemma lex_run_dump_string s :
  lex_run LIdle (dump_string s) = Some ([TStr s], LIdle).
Proof.
  unfold dump_string.
  apply (lex_run_cons LIdle _ _ [] (LStr []) [TStr s] LIdle);
    [reflexivity|].
  apply (lex_run_seq _ _ _ [] (LStr (List.rev (str s))) [TStr s] LIdle).
  - rewrite lex_run_escape, List.app_nil_r. reflexivity.
  - cbn. rewrite List.rev_involutive. unfold str.
    rewrite string_of_list_ascii_of_string. reflexivity.
Qed.


Lemma lex_run_uint d : forall acc,
  lex_run (LNum acc) (str (NilEmpty.string_of_uint d))
  = Some ([], LNum (List.rev (str (NilEmpty.string_of_uint d)) ++ acc)).
Proof.
  induction d; intros acc; [reflexivity|..];
    cbn [NilEmpty.string_of_uint str list_ascii_of_string List.rev];
    (eapply eq_trans;
     [eapply lex_run_cons; [reflexivity|apply IHd]|]);
    rewrite <- app_assoc; reflexivity.
Qed.

Lemma lex_run_uint_idle d :
  d <> Decimal.Nil ->
  lex_run LIdle (str (NilZero.string_of_uint d))
  = Some ([], LNum (List.rev (str (NilZero.string_of_uint d)))).
Proof.
  intros Hd. destruct d; [congruence|..];
    cbn [NilZero.string_of_uint NilEmpty.string_of_uint str
           list_ascii_of_string List.rev];
    (eapply eq_trans;
     [eapply lex_run_cons; [reflexivity|apply lex_run_uint]|]);
    reflexivity.
Qed.

Lemma to_int_cases z :
  (exists d, Z.to_int z = Decimal.Pos d /\ d <> Decimal.Nil) \/
  (exists d, Z.to_int z = Decimal.Neg d /\ d <> Decimal.Nil).
Proof.
  destruct z as [|p|p]; cbn.
  - left. eexists. split; [reflexivity|discriminate].
  - left. eexists. split; [reflexivity|apply Unsigned.to_uint_nonnil].
  - right. eexists. split; [reflexivity|apply Unsigned.to_uint_nonnil].
Qed.

Lemma lex_run_py_str z :
  lex_run LIdle (str (py_str z))
  = Some ([], LNum (List.rev (str (py_str z)))).
Proof.
  unfold py_str.
  destruct (to_int_cases z) as [(d & -> & Hd)|(d & -> & Hd)];
    cbn [NilZero.string_of_int].
  - apply lex_run_uint_idle, Hd.
  - assert (E : NilZero.string_of_uint d = NilEmpty.string_of_uint d)
      by (destruct d; [congruence|reflexivity..]).
    rewrite E. cbn [str list_ascii_of_string List.rev].
    eapply eq_trans;
      [eapply lex_run_cons; [reflexivity|apply lex_run_uint]|].
    reflexivity.
Qed.

Lemma finish_num_py_str z :
  finish_num (List.rev (str (py_str z))) = Some (TInt z).
Proof.
  unfold finish_num. rewrite List.rev_involutive. unfold str.
  rewrite string_of_list_ascii_of_string. unfold py_str at 1.
  rewrite NilZero.isi.
  - rewrite DecimalZ.of_to, String.eqb_refl. reflexivity.
  - destruct (to_int_cases z) as [(d & -> & Hd)|(d & -> & Hd)]; congruence.
  - destruct (to_int_cases z) as [(d & -> & Hd)|(d & -> & Hd)]; congruence.
Qed.


Lemma lex_run_spaces n : lex_run LIdle (spaces n) = Some ([], LIdle).
Proof.
  induction n as [|n IH]; [reflexivity|].
  unfold spaces in *. cbn [repeat].
  eapply eq_trans; [eapply lex_run_cons; [reflexivity|apply IH]|].
  reflexivity.
Qed.

Lemma lex_step_after_num z c ts st :
  is_digit c = false ->
  (Ascii.eqb c "." || Ascii.eqb c "e" || Ascii.eqb c "E")%char = false ->
  idle_step c = Some (ts, st) ->
  lex_step (LNum (List.rev (str (py_str z)))) c = Some (TInt z :: ts, st).
Proof.
  intros Hd He Hi. cbn [lex_step].
  rewrite Hd, He, finish_num_py_str, Hi. reflexivity.
Qed.

Ltac lex_chain :=
  repeat first
    [ apply lex_run_spaces
    | apply lex_run_dump_string
    | apply lex_run_py_str
    | eapply lex_run_seq;
      [first [apply lex_run_spaces | apply lex_run_dump_string
             | apply lex_run_py_str]|]
    | eapply lex_run_cons;
      [first [reflexivity
             | apply lex_step_after_num; reflexivity]|]
    | reflexivity ].

Lemma lex_run_entry e :
  lex_run LIdle (entry_text e) = Some (entry_tokens e, LIdle).
Proof.
  destruct e as [z s]. unfold entry_text, entry.
  cbn [dump_dict map join dump_member fst snd dump_scalar].
  rewrite <- ?app_assoc, <- ?app_comm_cons. cbn [app].
  rewrite <- ?app_assoc, <- ?app_comm_cons.
  eapply eq_trans; [lex_chain|reflexivity].
Qed.


Lemma lex_run_entries l :
  lex_run LIdle (join [","%char; nl] (map entry_text l))
  = Some (join [TComma] (map entry_tokens l), LIdle).
Proof.
  induction l as [|e l IH]; [reflexivity|].
  destruct l as [|e' l].
  - apply lex_run_entry.
  - change (lex_run LIdle
              (entry_text e
               ++ [","%char; nl] ++ join [","%char; nl] (map entry_text (e' :: l)))
            = Some (entry_tokens e ++ [TComma]
                      ++ join [TComma] (map entry_tokens (e' :: l)), LIdle)).
    eapply lex_run_seq; [apply lex_run_entry|].
    eapply (lex_run_seq _ _ _ [TComma] LIdle); [reflexivity|apply IH].
Qed.

Lemma json_dump_entries e l :
  json_dump (entries (e :: l))
  = "["%char :: nl :: join [","%char; nl] (map entry_text (e :: l))
      ++ [nl; "]"%char].
Proof.
  unfold entries, json_dump. cbn [map].
  do 3 f_equal. f_equal. rewrite map_map. reflexivity.
Qed.

Lemma lex_json_dump l :
  lex (json_dump (entries l)) = Some (history_tokens l).
Proof.
  destruct l as [|e l]; [reflexivity|].
  rewrite json_dump_entries. unfold lex, history_tokens.
  set (l' := e :: l).
  assert (R : lex_run LIdle
                ("["%char :: nl :: join [","%char; nl] (map entry_text l')
                   ++ [nl; "]"%char])
              = Some (TLBracket :: join [TComma] (map entry_tokens l')
                        ++ [TRBracket], LIdle)).
  { apply (lex_run_cons LIdle _ _ [TLBracket] LIdle); [reflexivity|].
    apply (lex_run_cons LIdle _ _ [] LIdle); [reflexivity|].
    eapply lex_run_seq; [apply lex_run_entries|reflexivity]. }
  rewrite R. cbn [lex_end]. rewrite List.app_nil_r. reflexivity.
Qed.

End LexerFacts.

Section ParserFacts.

Lemma parse_run_app st a b :
  parse_run st (a ++ b)
  = match parse_run st a with
    | Some st' => parse_run st' b
    | None => None
    end.
Proof.
  revert st. induction a as [|t a IH]; intros st; cbn [app parse_run].
  - reflexivity.
  - destruct (parse_step st t); [apply IH|reflexivity].
Qed.

Lemma parse_run_entry st h e :
  parse_step st TLBrace = Some (PObjOpen h) ->
  parse_run st (entry_tokens e)
  = Some (PObjDone (entry (fst e) (snd e) :: h)).
Proof.
  intros H. unfold entry_tokens. cbn [parse_run]. rewrite H. reflexivity.
Qed.

Lemma parse_run_entries l : forall st h e,
  parse_step st TLBrace = Some (PObjOpen h) ->
  parse_run st (join [TComma] (map entry_tokens (e :: l)))
  = Some (PObjDone (List.rev (entries (e :: l)) ++ h)).
Proof.
  induction l as [|e' l IH]; intros st h e H.
  - apply parse_run_entry, H.
  - change (join [TComma] (map entry_tokens (e :: e' :: l)))
      with (entry_tokens e ++ [TComma]
            ++ join [TComma] (map entry_tokens (e' :: l))).
    rewrite parse_run_app, (parse_run_entry st h e H).
    cbn [app parse_run parse_step].
    rewrite (IH (PNextObj (entry (fst e) (snd e) :: h))
                (entry (fst e) (snd e) :: h) e' eq_refl).
    unfold entries. cbn [map List.rev]. rewrite <- !app_assoc.
    reflexivity.
Qed.

Lemma parse_history_tokens l : parse (history_tokens l) = Some (entries l).
Proof.
  destruct l as [|e l]; [reflexivity|].
  unfold parse, history_tokens. cbn [parse_run parse_step].
  rewrite parse_run_app, (parse_run_entries l PArrOpen [] e eq_refl).
  cbn [parse_run parse_step]. rewrite List.app_nil_r, List.rev_involutive.
  reflexivity.
Qed.

(** The persisted text of a history reads back as the history. *)
Lemma json_load_dump l : json_load (json_dump (entries l)) = Some (entries l).
Proof.
  unfold json_load. rewrite lex_json_dump. apply parse_history_tokens.
Qed.

End ParserFacts.

Section StoreFacts.

Lemma entries_encode h : entries (map encode h) = map entry_of h.
Proof. unfold entries. rewrite map_map. reflexivity. Qed.

Lemma json_load_write_history h :
  json_load (write_history h) = Some (map entry_of h).
Proof.
  unfold write_history. rewrite <- entries_encode. apply json_load_dump.
Qed.

Lemma dict_get_elo e now : dict_get (new_entry e now) "elo" = Some e.
Proof. reflexivity. Qed.

Lemma dict_get_timestamp e now :
  dict_get (new_entry e now) "timestamp" = Some (SStr (isoformat now)).
Proof. reflexivity. Qed.

Lemma snapshot_of_entry_of s :
  wf_snapshot s -> snapshot_of (entry_of s) = Some s.
Proof.
  intros Hwf. destruct s as [r t]. unfold snapshot_of, entry_of.
  rewrite dict_get_elo, dict_get_timestamp. cbn [rating taken].
  rewrite (fromisoformat_isoformat t Hwf). reflexivity.
Qed.

Lemma snapshots_of_entries h :
  Forall wf_snapshot h -> snapshots_of (map entry_of h) = Some h.
Proof.
  induction 1 as [|s h Hs _ IH]; [reflexivity|].
  cbn [map snapshots_of]. rewrite (snapshot_of_entry_of s Hs), IH.
  reflexivity.
Qed.

Lemma read_write_history h :
  Forall wf_snapshot h -> read_history (write_history h) = Some h.
Proof.
  intros H. unfold read_history.
  rewrite json_load_write_history. apply snapshots_of_entries, H.
Qed.


Lemma entry_date_entry_of s :
  wf_snapshot s -> entry_date (entry_of s) = Some (date_of (taken s)).
Proof.
  intros Hwf. unfold entry_date, entry_of.
  rewrite dict_get_timestamp, (fromisoformat_isoformat _ Hwf). reflexivity.
Qed.

Lemma filter_by_date_entries keep h :
  Forall wf_snapshot h ->
  filter_by_date keep (map entry_of h)
  = Some (map entry_of (filter (fun s => keep (date_of (taken s))) h)).
Proof.
  induction 1 as [|s h Hs _ IH]; [reflexivity|].
  cbn [map filter_by_date filter].
  rewrite (entry_date_entry_of s Hs), IH.
  destruct (keep (date_of (taken s))); reflexivity.
Qed.

Lemma drop_leading_zeros_entries q :
  drop_leading_zeros (map entry_of q)
  = Some (map entry_of (drop_zero_prefix q)).
Proof.
  induction q as [|s q IH]; [reflexivity|].
  cbn [map drop_leading_zeros drop_zero_prefix].
  unfold entry_of at 1. rewrite dict_get_elo.
  destruct (rating s) as [|p|p]; cbn [Z.eqb]; [exact IH|reflexivity..].
Qed.

Lemma last_map {A B} (f : A -> B) l d : last (map f l) (f d) = f (last l d).
Proof.
  induction l as [|x l IH]; [reflexivity|].
  destruct l as [|y l]; [reflexivity|]. exact IH.
Qed.

Lemma first_to_latest_entries q :
  match map entry_of q with
  | [] | [_] => Some 0
  | e :: es =>
      first_elo <- dict_get e "elo" ;;
      latest_elo <- dict_get (last es e) "elo" ;;
      py_sub latest_elo first_elo
  end = Some (latest_minus_first q).
Proof.
  destruct q as [|s [|s' r]]; [reflexivity..|].
  cbn [map latest_minus_first].
  rewrite <- map_cons, last_map.
  unfold entry_of. rewrite !dict_get_elo. reflexivity.
Qed.

Lemma daily_change_of_entries today h :
  Forall wf_snapshot h ->
  daily_change_of today (map entry_of h) = Some (daily_delta today h).
Proof.
  intros Hwf. unfold daily_change_of, daily_delta, same_day.
  destruct h as [|s h]; [reflexivity|].
  cbn [map].
  change (entry_of s :: map entry_of h) with (map entry_of (s :: h)).
  rewrite (filter_by_date_entries (date_eqb today) _ Hwf).
  rewrite drop_leading_zeros_entries. apply first_to_latest_entries.
Qed.

Lemma get_daily_elo_change_history now h :
  Forall wf_snapshot h ->
  get_daily_elo_change now (Some (write_history h))
  = daily_delta (date_of now) h.
Proof.
  intros Hwf. unfold get_daily_elo_change.
  rewrite json_load_write_history, (daily_change_of_entries _ _ Hwf).
  reflexivity.
Qed.

End StoreFacts.

Section StoreClaims.







Lemma daily_change_of_single today e :
  match daily_change_of today [e] with
  | Some change => change
  | None => 0
  end = 0.
Proof.
  unfold daily_change_of. cbn [filter_by_date].
  destruct (entry_date e) as [d|]; [|reflexivity].
  destruct (date_eqb today d); [|reflexivity].
  cbn [drop_leading_zeros].
  destruct (dict_get e "elo") as [[[|p|p]|s]|]; reflexivity.
Qed.

Lemma last_elo_entries h s :
  last_elo (map entry_of (h ++ [s])) = Some (SInt (rating s)).
Proof.
  unfold last_elo.
  destruct (map entry_of (h ++ [s])) as [|e es] eqn:E.
  - destruct h; discriminate E.
  - assert (L : last (e :: es) e = entry_of s).
    { rewrite <- E, map_app. cbn [map]. apply last_last. }
    assert (L' : last es e = last (e :: es) e)
      by (destruct es; reflexivity).
    rewrite L', L. reflexivity.
Qed.

Lemma save_elo_record_history elo now h :
  save_elo_record elo now (Some (write_history h))
  = Some (write_history (h ++ [mkSnap elo now])).
Proof.
  unfold save_elo_record. rewrite json_load_write_history.
  unfold write_history. rewrite map_app. reflexivity.
Qed.

(** The scenario of the specification: 1500 then 1520 on one day give a
    delta of 20; after the reset the file holds 1520 alone and the delta
    is 0. *)
Example append_append_reset :
  let f1 := save_elo_record 1500 Sample.at_14 (Some (write_history [])) in
  let f2 := save_elo_record 1520 Sample.at_15 f1 in
  let f3 := reset_daily_stats Sample.at_16 f2 in
  f1 = Some (write_history [mkSnap 1500 Sample.at_14])
  /\ get_daily_elo_change Sample.at_15 f2 = 20
  /\ f3 = Some (write_history [mkSnap 1520 Sample.at_16])
  /\ get_daily_elo_change Sample.at_16 f3 = 0.
Proof. cbv zeta. repeat split; vm_compute; reflexivity. Qed.

(** C7. For every non-empty history, [reset_daily_stats] leaves a file
    that holds exactly one snapshot, with the rating of the last snapshot
    and the current instant, and [get_daily_elo_change] called next
    returns 0. *)
Theorem reset_daily_stats_keeps_last_rating now now' h s :
  reset_daily_stats now (Some (write_history (h ++ [s])))
  = Some (write_history [mkSnap (rating s) now])
  /\ json_load (write_history [mkSnap (rating s) now])
     = Some [entry (rating s) (isoformat now)]
  /\ get_daily_elo_change now'
       (reset_daily_stats now (Some (write_history (h ++ [s])))) = 0.
Proof.
  assert (R : reset_daily_stats now (Some (write_history (h ++ [s])))
              = Some (write_history [mkSnap (rating s) now])).
  { unfold reset_daily_stats.
    rewrite json_load_write_history, last_elo_entries. reflexivity. }
  split; [exact R|]. split; [apply json_load_write_history|].
  rewrite R. unfold get_daily_elo_change.
  rewrite json_load_write_history. apply daily_change_of_single.
Qed.

(** C10. When the file holds an empty list, [reset_daily_stats] writes
    one snapshot with rating 0, so the history afterwards is exactly one
    zero-rated seed; when the file is absent it writes nothing and no
    file appears. *)
Theorem reset_daily_stats_empty_or_absent now t :
  json_load t = Some [] ->
  reset_daily_stats now (Some t) = Some (write_history [mkSnap 0 now])
  /\ json_load (write_history [mkSnap 0 now])
     = Some [entry 0 (isoformat now)]
  /\ reset_daily_stats now None = None.
Proof.
  intros Ht. split; [|split].
  - unfold reset_daily_stats. rewrite Ht. reflexivity.
  - apply json_load_write_history.
  - reflexivity.
Qed.

Lemma reset_daily_stats_empty_or_absent_witness :
  let now := mkDT 2024 3 10 4 0 0 1530 (Some 120) in
  json_load (write_history []) = Some [] /\
  (reset_daily_stats now (Some (write_history []))
   = Some (write_history [mkSnap 0 now])
   /\ json_load (write_history [mkSnap 0 now])
      = Some [entry 0 (isoformat now)]
   /\ reset_daily_stats now None = None).
Proof.
  cbv zeta. split; [reflexivity|].
  exact (reset_daily_stats_empty_or_absent
           (mkDT 2024 3 10 4 0 0 1530 (Some 120)) (write_history [])
           eq_refl).
Defined.

(** C8. Writing a sequence of snapshots in the persisted format, a JSON
    array of objects with an integer ["elo"] and an ISO-8601
    ["timestamp"], and reading the text back gives the same sequence. *)
Theorem write_then_read_history h :
  Forall wf_snapshot h ->
  json_load (write_history h)
  = Some (map (fun s => entry (rating s) (isoformat (taken s))) h)
  /\ read_history (write_history h) = Some h.
Proof.
  intros Hwf. split.
  - apply json_load_write_history.
  - apply read_write_history, Hwf.
Qed.

Lemma write_then_read_history_witness :
  let h := [mkSnap 0 (mkDT 2024 3 9 4 0 0 120 (Some 120));
            mkSnap 1500 (mkDT 2024 3 9 14 5 7 123456 (Some (-300)));
            mkSnap 1520 (mkDT 2024 12 31 23 59 59 0 (Some 0))] in
  Forall wf_snapshot h /\
  (json_load (write_history h)
   = Some (map (fun s => entry (rating s) (isoformat (taken s))) h)
   /\ read_history (write_history h) = Some h).
Proof.
  cbv zeta. split; [repeat constructor|].
  apply write_then_read_history; repeat constructor.
Defined.

End StoreClaims.

Section FaceitClaims.

#[local] Open Scope string_scope.

Lemma truthy_named f : f <> EmptyString -> truthy (Some f) = true.
Proof.
  intros H. cbn [truthy]. destruct (String.eqb_spec f EmptyString);
    [contradiction|reflexivity].
Qed.









Lemma _get_daily_matches_failed history id :
  request_failed history = true -> _get_daily_matches history id = (0, 0).
Proof.
  destruct history as [|code [matches|]]; cbn [request_failed];
    [reflexivity|..]; cbn [_get_daily_matches];
    destruct (negb (code =? 200)%Z); cbn [orb]; intros E;
    try discriminate E; reflexivity.
Qed.

(** C6 (as amended). [get_faceit_stats] is a function: whatever the two
    requests give, it returns a value and raises nothing. When the
    player lookup fails (an exception of the request such as a timeout
    or a network error, a status other than 200, a payload that does not
    decode, a missing player id) the value is the zero result. When the
    lookup succeeds and the match-history request fails, the value
    keeps the fetched rating and has zero wins and zero losses. *)
Theorem get_faceit_stats_failures players history :
  (lookup_failed players = true ->
   get_faceit_stats players history = _get_empty_stats)
  /\ (forall code id elo,
        players = Response code (Some (mkPlayer (Some id) elo)) ->
        lookup_failed players = false ->
        request_failed history = true ->
        get_faceit_stats players history
        = mkStats (match elo with Some e => e | None => 0 end) 0 0).
Proof.
  split.
  - destruct players as [|code [data|]]; [reflexivity| |];
      cbn [lookup_failed get_faceit_stats];
      destruct (negb (code =? 200)%Z); cbn [orb]; try reflexivity.
    intros ->. reflexivity.
  - intros code id elo -> Hok Hh. cbn [lookup_failed player_id] in Hok.
    cbn [get_faceit_stats player_id].
    apply orb_false_iff in Hok. destruct Hok as [-> ->].
    rewrite (_get_daily_matches_failed _ id Hh). reflexivity.
Qed.

Lemma get_faceit_stats_failures_witness :
  let players : http_result player_data := Response 404 None in
  let history : http_result (list match_record) := RequestError in
  let ok := Response 200 (Some (mkPlayer (Some "p1") (Some 1500))) in
  lookup_failed players = true /\
  get_faceit_stats players history = _get_empty_stats /\
  ok = Response 200 (Some (mkPlayer (Some "p1") (Some 1500))) /\
  lookup_failed ok = false /\
  request_failed history = true /\
  get_faceit_stats ok history = mkStats 1500 0 0.
Proof.
  cbv zeta. split; [reflexivity|].
  split;
    [exact (proj1 (get_faceit_stats_failures (Response 404 None)
                     RequestError) eq_refl)|].
  split; [reflexivity|]. split; [reflexivity|]. split; [reflexivity|].
  exact (proj2 (get_faceit_stats_failures
                  (Response 200 (Some (mkPlayer (Some "p1") (Some 1500))))
                  RequestError)
               200 "p1" (Some 1500) eq_refl eq_refl eq_refl).
Defined.

(** C6 as stated fails when the failure is in the second request: the
    lookup gives a rating of 1500 and the match history answers with
    status 500; the result carries the rating, it is not the zero
    result. *)
Lemma get_faceit_stats_history_failure_counterexample :
  let players := Response 200 (Some (mkPlayer (Some "p1") (Some 1500))) in
  let history : http_result (list match_record) := Response 500 None in
  request_failed history = true
  /\ get_faceit_stats players history = mkStats 1500 0 0
  /\ get_faceit_stats players history <> _get_empty_stats
  /\ ~ (forall p h,
          lookup_failed p = true \/ request_failed h = true ->
          get_faceit_stats p h = _get_empty_stats).
Proof.
  cbv zeta. split; [reflexivity|]. split; [reflexivity|].
  split; [discriminate|].
  intros H.
  specialize (H (Response 200 (Some (mkPlayer (Some "p1") (Some 1500))))
                (Response 500 None) (or_intror eq_refl)).
  discriminate H.
Qed.

End FaceitClaims.

Section SchedulerClaims.




















End SchedulerClaims.

Section DispatcherFacts.

Lemma nth_error_snoc {A} (l : list A) x :
  nth_error (l ++ [x]) (List.length l) = Some x.
Proof.
  rewrite nth_error_app2 by lia. rewrite Nat.sub_diag. reflexivity.
Qed.

Lemma set_nth_snoc {A} (l : list A) x y :
  set_nth (List.length l) y (l ++ [x]) = l ++ [y].
Proof.
  induction l as [|z l IH]; [reflexivity|].
  cbn [List.length app set_nth]. rewrite IH. reflexivity.
Qed.

Lemma handle_spawns user t b :
  elo_cooldown <= t - last_elo_time b ->
  pending_alive b = false ->
  _handle_elo_command user t b = spawn user b.
Proof.
  intros Hc Hp. unfold _handle_elo_command. rewrite Hp.
  destruct (Z.ltb_spec (t - last_elo_time b) elo_cooldown); [lia|].
  reflexivity.
Qed.

Lemma handle_cooldown user t b :
  t - last_elo_time b < elo_cooldown -> _handle_elo_command user t b = b.
Proof.
  intros Hc. unfold _handle_elo_command.
  destruct (Z.ltb_spec (t - last_elo_time b) elo_cooldown); [|lia].
  reflexivity.
Qed.

Lemma handle_single_flight user t b :
  pending_alive b = true -> _handle_elo_command user t b = b.
Proof.
  intros Hp. unfold _handle_elo_command. rewrite Hp.
  destruct (t - last_elo_time b <? elo_cooldown); reflexivity.
Qed.

Lemma thread_step_last ch lt pend l user p f out ev w :
  thread_step (List.length l) w
    (mkBot ch lt pend (l ++ [mkThread user p]) f out ev)
  = match p with
    | pc_fetch =>
        let s := get_faceit_stats (w_players w) (w_history w) in
        mkBot ch lt pend (l ++ [mkThread user (pc_change s)]) f out
              (ev ++ [EvFetch s])
    | pc_change s =>
        let daily_change := get_daily_elo_change (w_now w) f in
        mkBot ch lt pend (l ++ [mkThread user (pc_save s daily_change)])
              f out (ev ++ [EvChange daily_change])
    | pc_save s daily_change =>
        mkBot ch lt pend (l ++ [mkThread user (pc_send s daily_change)])
              (if 0 <? Elo s then save_elo_record (Elo s) (w_now w) f
               else f)
              out
              (ev ++ if 0 <? Elo s then [EvSave (Elo s)] else [])
    | pc_send s daily_change =>
        let line := privmsg ch (response user s daily_change) in
        mkBot ch lt pend (l ++ [mkThread user pc_stamp]) f
              (out ++ [line]) (ev ++ [EvSend line])
    | pc_stamp =>
        mkBot ch (w_time w) pend (l ++ [mkThread user pc_done]) f out
              (ev ++ [EvStamp (w_time w)])
    | pc_done => mkBot ch lt pend (l ++ [mkThread user pc_done]) f out ev
    end.
Proof.
  unfold thread_step. cbn [threads]. rewrite nth_error_snoc.
  cbn [at_pc username CHANNEL last_elo_time pending_elo_thread ELO_FILE
         irc events].
  unfold goto. cbn [threads].
  destruct p; rewrite ?set_nth_snoc; try reflexivity.
  destruct (0 <? Elo s); rewrite ?List.app_nil_r; reflexivity.
Qed.

(** The state a thread leaves when it runs alone from its first
    statement to its last. *)
Lemma _process_elo_spawned user w1 w2 w3 w4 w5 b :
  let s := get_faceit_stats (w_players w1) (w_history w1) in
  let daily_change := get_daily_elo_change (w_now w2) (ELO_FILE b) in
  let line := privmsg (CHANNEL b) (response user s daily_change) in
  _process_elo (List.length (threads b)) w1 w2 w3 w4 w5 (spawn user b)
  = mkBot (CHANNEL b) (w_time w5) (Some (List.length (threads b)))
          (threads b ++ [mkThread user pc_done])
          (if 0 <? Elo s
           then save_elo_record (Elo s) (w_now w3) (ELO_FILE b)
           else ELO_FILE b)
          (irc b ++ [line])
          (events b ++ [EvFetch s; EvChange daily_change]
             ++ (if 0 <? Elo s then [EvSave (Elo s)] else [])
             ++ [EvSend line; EvStamp (w_time w5)]).
Proof.
  cbv zeta. unfold _process_elo, spawn.
  do 5 (rewrite thread_step_last; cbv iota zeta).
  rewrite <- !app_assoc. reflexivity.
Qed.

End DispatcherFacts.

Section DispatcherClaims.





(** C4. Whatever the users, when a first [!elo] passes the gates and its
    thread completes, a second [!elo] that arrives less than 5 seconds
    after that completion is dropped: the state of the bot is unchanged,
    so nothing is sent and no second thread exists; one thread was
    started in all. Any [!elo] within the cooldown of [last_elo_time]
    leaves the state unchanged. *)
Theorem _handle_elo_command_cooldown u1 t1 u2 t2 w1 w2 w3 w4 w5 b :
  elo_cooldown <= t1 - last_elo_time b ->
  pending_alive b = false ->
  t2 - w_time w5 < elo_cooldown ->
  let b1 := _handle_elo_command u1 t1 b in
  let b2 := _process_elo (List.length (threads b)) w1 w2 w3 w4 w5 b1 in
  let b3 := _handle_elo_command u2 t2 b2 in
  threads b1 = threads b ++ [mkThread u1 pc_fetch]
  /\ last_elo_time b2 = w_time w5
  /\ b3 = b2
  /\ irc b3 = irc b2
  /\ List.length (threads b3) = S (List.length (threads b))
  /\ (forall b0 u t,
        t - last_elo_time b0 < elo_cooldown ->
        _handle_elo_command u t b0 = b0).
Proof.
  intros Hc Hp H2. cbv zeta.
  rewrite (handle_spawns u1 t1 b Hc Hp), _process_elo_spawned.
  split; [reflexivity|]. split; [reflexivity|].
  rewrite handle_cooldown by exact H2.
  split; [reflexivity|]. split; [reflexivity|].
  split; [cbn [threads]; rewrite length_app; cbn; lia|].
  intros b0 u t. apply handle_cooldown.
Qed.

Lemma _handle_elo_command_cooldown_witness :
  let w := Sample.world_1520 in
  let b2 := _process_elo 0 w w w w w
              (_handle_elo_command "bob" 1700000000000000 Sample.bot_1500) in
  elo_cooldown <= 1700000000000000 - last_elo_time Sample.bot_1500 /\
  pending_alive Sample.bot_1500 = false /\
  1700000006999999 - w_time w < elo_cooldown /\
  _handle_elo_command "alice" 1700000006999999 b2 = b2.
Proof.
  cbv zeta. split; [vm_compute; discriminate|]. split; [reflexivity|].
  split; [vm_compute; reflexivity|].
  refine (proj1 (proj2 (proj2
    (_handle_elo_command_cooldown "bob" 1700000000000000
       "alice" 1700000006999999
       Sample.world_1520 Sample.world_1520 Sample.world_1520
       Sample.world_1520 Sample.world_1520 Sample.bot_1500 _ _ _)))).
  - vm_compute; discriminate.
  - reflexivity.
  - vm_compute; reflexivity.
Defined.

End DispatcherClaims.

Section SingleFlight.

Lemma nth_error_set_nth {A} (l : list A) : forall i j x y,
  nth_error (set_nth i x l) j = Some y ->
  (j = i /\ y = x /\ exists z, nth_error l i = Some z)
  \/ (j <> i /\ nth_error l j = Some y).
Proof.
  induction l as [|z l IH]; intros i j x y H.
  - destruct i, j; discriminate H.
  - destruct i as [|i], j as [|j]; cbn [set_nth nth_error] in *.
    + injection H as <-. left. eauto.
    + right. split; [discriminate|exact H].
    + right. split; [discriminate|exact H].
    + destruct (IH i j x y H) as [(-> & -> & Hz)|(Hne & Hj)].
      * left. auto.
      * right. split; [congruence|exact Hj].
Qed.

Lemma pending_alive_true b i t :
  pending_elo_thread b = Some i ->
  nth_error (threads b) i = Some t ->
  is_alive t = true ->
  pending_alive b = true.
Proof.
  intros Hp Hn Ha. unfold pending_alive. rewrite Hp, Hn. exact Ha.
Qed.

Lemma invariant_initial channel f : in_flight_is_pending (initial channel f).
Proof. intros i t H. destruct i; discriminate H. Qed.

Lemma invariant_handle user t b :
  in_flight_is_pending b ->
  in_flight_is_pending (_handle_elo_command user t b).
Proof.
  intros Hinv. unfold _handle_elo_command.
  destruct (t - last_elo_time b <? elo_cooldown); [exact Hinv|].
  destruct (pending_alive b) eqn:Hp; [exact Hinv|].
  intros i th Hn Ha. cbn [spawn threads pending_elo_thread] in *.
  destruct (Nat.lt_ge_cases i (List.length (threads b))) as [Hlt|Hge].
  - rewrite nth_error_app1 in Hn by exact Hlt.
    pose proof (pending_alive_true b i th (Hinv i th Hn Ha) Hn Ha).
    congruence.
  - rewrite nth_error_app2 in Hn by exact Hge.
    destruct (i - List.length (threads b))%nat as [|k] eqn:E.
    + f_equal. lia.
    + destruct k; discriminate Hn.
Qed.

Lemma thread_step_alive i w b j t' :
  nth_error (threads (thread_step i w b)) j = Some t' ->
  is_alive t' = true ->
  exists t, nth_error (threads b) j = Some t /\ is_alive t = true.
Proof.
  unfold thread_step.
  destruct (nth_error (threads b) i) as [t|] eqn:Hi; [|eauto].
  assert (Hgo : forall p,
             at_pc t <> pc_done ->
             nth_error (goto i (username t) p b) j = Some t' ->
             is_alive t' = true ->
             exists t0, nth_error (threads b) j = Some t0
                        /\ is_alive t0 = true).
  { intros p Hnd Hn Ha. unfold goto in Hn.
    destruct (nth_error_set_nth _ _ _ _ _ Hn) as [(-> & -> & _)|(_ & Hj)].
    - exists t. split; [exact Hi|].
      unfold is_alive. destruct (at_pc t); congruence.
    - eauto. }
  destruct (at_pc t) eqn:Hpc; try (apply Hgo; discriminate).
  - destruct (0 <? Elo s); apply Hgo; discriminate.
  - eauto.
Qed.

Lemma thread_step_pending i w b :
  pending_elo_thread (thread_step i w b) = pending_elo_thread b.
Proof.
  unfold thread_step.
  destruct (nth_error (threads b) i) as [t|]; [|reflexivity].
  destruct (at_pc t); try reflexivity.
  destruct (0 <? Elo s); reflexivity.
Qed.

Lemma invariant_step b b' :
  step b b' -> in_flight_is_pending b -> in_flight_is_pending b'.
Proof.
  intros Hs Hinv. destruct Hs as [user t|i w|now|now].
  - apply invariant_handle, Hinv.
  - intros j t' Hn Ha. rewrite thread_step_pending.
    destruct (thread_step_alive i w b j t' Hn Ha) as (t0 & Hn0 & Ha0).
    exact (Hinv j t0 Hn0 Ha0).
  - exact Hinv.
  - exact Hinv.
Qed.

Lemma invariant_reachable channel f b :
  reachable channel f b -> in_flight_is_pending b.
Proof.
  induction 1 as [now|b b' _ IH Hs].
  - apply invariant_initial.
  - exact (invariant_step b b' Hs IH).
Qed.

Lemma filter_none_alive (l : list thread) :
  (forall i t, nth_error l i = Some t -> is_alive t = false) ->
  filter is_alive l = [].
Proof.
  induction l as [|x l IH]; intros H; [reflexivity|].
  cbn [filter]. rewrite (H 0%nat x eq_refl).
  apply IH. intros i t Hn. exact (H (S i) t Hn).
Qed.

Lemma at_most_one_alive (l : list thread) :
  (forall i j ti tj,
      nth_error l i = Some ti -> is_alive ti = true ->
      nth_error l j = Some tj -> is_alive tj = true -> i = j) ->
  (List.length (filter is_alive l) <= 1)%nat.
Proof.
  induction l as [|x l IH]; intros H; [cbn; lia|].
  cbn [filter]. destruct (is_alive x) eqn:Hx.
  - rewrite filter_none_alive; [cbn; lia|].
    intros i t Hn. destruct (is_alive t) eqn:Ht; [|reflexivity].
    pose proof (H 0%nat (S i) x t eq_refl Hx Hn Ht). discriminate.
  - apply IH. intros i j ti tj Hi Hai Hj Haj.
    pose proof (H (S i) (S j) ti tj Hi Hai Hj Haj). lia.
Qed.

Lemma invariant_alive_count b :
  in_flight_is_pending b -> (alive_count b <= 1)%nat.
Proof.
  intros Hinv. apply at_most_one_alive.
  intros i j ti tj Hi Hai Hj Haj.
  pose proof (Hinv i ti Hi Hai). pose proof (Hinv j tj Hj Haj). congruence.
Qed.

(** C5. In every state the process can reach, at most one [_process_elo]
    thread has not finished; and while one has not, every [!elo] is
    dropped, at whatever time it arrives: the state is unchanged and no
    thread is started. *)
Theorem single_flight channel f b :
  reachable channel f b ->
  (alive_count b <= 1)%nat
  /\ (forall i th,
        nth_error (threads b) i = Some th -> is_alive th = true ->
        forall user t, _handle_elo_command user t b = b)
  /\ (forall user t, (alive_count (_handle_elo_command user t b) <= 1)%nat).
Proof.
  intros Hr. pose proof (invariant_reachable channel f b Hr) as Hinv.
  split; [apply invariant_alive_count, Hinv|]. split.
  - intros i th Hn Ha user t. apply handle_single_flight.
    exact (pending_alive_true b i th (Hinv i th Hn Ha) Hn Ha).
  - intros user t. apply invariant_alive_count, invariant_handle, Hinv.
Qed.

Lemma single_flight_witness :
  let b := thread_step 0 Sample.world_1520
             (_handle_elo_command "bob" 1700000000000000
                (initial "chan" (init_elo_file Sample.at_14 None))) in
  reachable "chan" None b /\
  nth_error (threads b) 0
  = Some (mkThread "bob" (pc_change (mkStats 1520 0 0))) /\
  _handle_elo_command "alice" 1800000000000000 b = b.
Proof.
  cbv zeta.
  assert (Hr : reachable "chan" None
                 (thread_step 0 Sample.world_1520
                    (_handle_elo_command "bob" 1700000000000000
                       (initial "chan" (init_elo_file Sample.at_14 None))))).
  { eapply reach_step; [eapply reach_step; [apply reach_init|]|].
    - apply step_command.
    - apply step_thread. }
  split; [exact Hr|]. split; [reflexivity|].
  exact (proj1 (proj2 (single_flight "chan" None _ Hr))
           0%nat (mkThread "bob" (pc_change (mkStats 1520 0 0)))
           eq_refl eq_refl "alice"%string 1800000000000000).
Defined.

End SingleFlight.

(** * Beyond the claims *)

(** ** More on the rating store *)

Section StoreCoverage.

(** X1. Whatever the ratings and the timestamp strings (quotes,
    backslashes, control characters and bytes outside ASCII included),
    the text [json.dump] writes for a list of elements is read back by
    [json.load] as that list. *)
Theorem history_text_round_trip l :
  json_load (json_dump (entries l)) = Some (entries l).
Proof. apply json_load_dump. Qed.

Lemma save_all_history rs : forall h,
  save_all rs (Some (write_history h)) = Some (write_history (h ++ snaps rs)).
Proof.
  induction rs as [|[r now] rs IH]; intros h.
  - cbn. rewrite List.app_nil_r. reflexivity.
  - cbn [save_all fold_left fst snd] in *.
    rewrite save_elo_record_history. unfold save_all in IH. rewrite IH.
    cbn [snaps map fst snd]. rewrite <- app_assoc. reflexivity.
Qed.

(** X2. [save_elo_record] appends: on a file that holds a history it
    leaves every earlier snapshot as it is and in place and adds the new
    one at the end, and so does any sequence of calls; on an absent file it
    creates the file with the one snapshot. *)
Theorem save_elo_record_appends elo now rs h :
  save_elo_record elo now (Some (write_history h))
  = Some (write_history (h ++ [mkSnap elo now]))
  /\ save_elo_record elo now None = Some (write_history [mkSnap elo now])
  /\ save_all rs (Some (write_history h))
     = Some (write_history (h ++ snaps rs))
  /\ (Forall wf_snapshot (h ++ snaps rs) ->
      match save_all rs (Some (write_history h)) with
      | Some t => read_history t
      | None => None
      end = Some (h ++ snaps rs)).
Proof.
  split; [apply save_elo_record_history|]. split; [reflexivity|].
  split; [apply save_all_history|].
  intros Hwf. rewrite save_all_history. apply read_write_history, Hwf.
Qed.

Lemma json_load_blank t :
  Forall (fun c => is_ws c = true) t -> json_load t = None.
Proof.
  intros H. unfold json_load, lex.
  assert (E : lex_run LIdle t = Some ([], LIdle)).
  { induction H as [|c t Hc _ IH]; [reflexivity|].
    cbn [lex_run lex_step]. unfold idle_step. rewrite Hc, IH. reflexivity. }
  rewrite E. reflexivity.
Qed.

(** X3. A blank file is never repaired. On a file that is empty or holds
    white space only (what an interrupted rewrite leaves),
    [save_elo_record], [reset_daily_stats] and [clean_old_elo_records]
    write nothing, so no later snapshot is ever recorded, and
    [get_daily_elo_change] returns 0. *)
Theorem blank_file_is_never_repaired t elo now :
  Forall (fun c => is_ws c = true) t ->
  save_elo_record elo now (Some t) = Some t
  /\ reset_daily_stats now (Some t) = Some t
  /\ clean_old_elo_records now (Some t) = Some t
  /\ get_daily_elo_change now (Some t) = 0
  /\ (forall rs, save_all rs (Some t) = Some t).
Proof.
  intros H. pose proof (json_load_blank t H) as E.
  assert (S1 : forall elo' now', save_elo_record elo' now' (Some t) = Some t)
    by (intros; unfold save_elo_record; rewrite E; reflexivity).
  unfold reset_daily_stats, clean_old_elo_records, get_daily_elo_change.
  rewrite E. split; [apply S1|]. repeat (split; [reflexivity|]).
  intros rs. induction rs as [|[r n] rs IH]; [reflexivity|].
  cbn [save_all fold_left fst snd] in *. rewrite S1. exact IH.
Qed.

Lemma blank_file_is_never_repaired_witness :
  Forall (fun c => is_ws c = true) [] /\
  save_elo_record 1500 Sample.at_14 (Some []) = Some [] /\
  get_daily_elo_change Sample.at_14
    (save_all [(1500, Sample.at_14); (1520, Sample.at_15)] (Some [])) = 0.
Proof.
  split; [constructor|].
  pose proof (blank_file_is_never_repaired [] 1500 Sample.at_14
                (Forall_nil _)) as (H1 & _ & _ & H4 & H5).
  split; [exact H1|].
  rewrite H5. exact H4.
Defined.

Lemma date_eqb_eq a b : date_eqb a b = true <-> a = b.
Proof.
  destruct a as [y m d], b as [y' m' d']. unfold date_eqb.
  cbn [d_year d_month d_day].
  rewrite !andb_true_iff, !N.eqb_eq. split.
  - intros [[-> ->] ->]. reflexivity.
  - intros [= -> -> ->]. auto.
Qed.

Lemma date_eqb_leb a b : date_eqb a b = true -> date_leb a b = true.
Proof.
  intros H. apply date_eqb_eq in H. subst b. unfold date_leb.
  apply Z.leb_refl.
Qed.

Lemma Forall_filter_keeps {A} (P : A -> Prop) (f : A -> bool) l :
  Forall P l -> Forall P (filter f l).
Proof.
  induction 1 as [|x l Hx _ IH]; [constructor|].
  cbn [filter]. destruct (f x); [constructor; assumption|assumption].
Qed.

Lemma filter_idempotent {A} (f : A -> bool) l :
  filter f (filter f l) = filter f l.
Proof.
  induction l as [|x l IH]; [reflexivity|].
  cbn [filter]. destruct (f x) eqn:E; [|exact IH].
  cbn [filter]. rewrite E, IH. reflexivity.
Qed.

Lemma filter_filter_implied {A} (f g : A -> bool) l :
  (forall x, f x = true -> g x = true) ->
  filter f (filter g l) = filter f l.
Proof.
  intros H. induction l as [|x l IH]; [reflexivity|].
  cbn [filter]. destruct (g x) eqn:Eg.
  - cbn [filter]. rewrite IH. reflexivity.
  - destruct (f x) eqn:Ef; [|exact IH].
    rewrite (H x Ef) in Eg. discriminate Eg.
Qed.

Lemma clean_old_history now h :
  Forall wf_snapshot h ->
  clean_old_elo_records now (Some (write_history h))
  = Some (write_history
            (filter (fun s => date_leb (date_of now) (date_of (taken s))) h)).
Proof.
  intros Hwf. unfold clean_old_elo_records.
  rewrite json_load_write_history.
  rewrite (filter_by_date_entries (date_leb (date_of now)) h Hwf).
  reflexivity.
Qed.

(** X4. On a history of snapshots [clean_old_elo_records] keeps, in
    order, exactly the snapshots dated today or later; cleaning twice is
    cleaning once; the daily delta of the day is the same after the
    cleaning as before; and an absent file stays absent. *)
Theorem clean_old_elo_records_keeps_today now h :
  Forall wf_snapshot h ->
  clean_old_elo_records now (Some (write_history h))
  = Some (write_history
            (filter (fun s => date_leb (date_of now) (date_of (taken s))) h))
  /\ clean_old_elo_records now
       (clean_old_elo_records now (Some (write_history h)))
     = clean_old_elo_records now (Some (write_history h))
  /\ get_daily_elo_change now
       (clean_old_elo_records now (Some (write_history h)))
     = get_daily_elo_change now (Some (write_history h))
  /\ clean_old_elo_records now None = None.
Proof.
  intros Hwf.
  set (kept := filter (fun s => date_leb (date_of now) (date_of (taken s))) h).
  assert (Hk : Forall wf_snapshot kept) by (apply Forall_filter_keeps, Hwf).
  rewrite (clean_old_history now h Hwf). fold kept.
  split; [reflexivity|]. split.
  - rewrite (clean_old_history now kept Hk). unfold kept.
    rewrite filter_idempotent. reflexivity.
  - split; [|reflexivity].
    rewrite (get_daily_elo_change_history now kept Hk),
      (get_daily_elo_change_history now h Hwf).
    unfold daily_delta, same_day, kept.
    rewrite filter_filter_implied; [reflexivity|].
    intros s. apply date_eqb_leb.
Qed.

Lemma clean_old_elo_records_keeps_today_witness :
  let yesterday := mkDT 2024 3 8 23 59 59 0 (Some 120) in
  let h := [mkSnap 1480 yesterday; mkSnap 1500 Sample.at_14;
            mkSnap 1520 Sample.at_15] in
  Forall wf_snapshot h /\
  clean_old_elo_records Sample.at_16 (Some (write_history h))
  = Some (write_history [mkSnap 1500 Sample.at_14; mkSnap 1520 Sample.at_15]).
Proof.
  cbv zeta. split; [repeat constructor|].
  refine (proj1 (clean_old_elo_records_keeps_today Sample.at_16
                   [mkSnap 1480 (mkDT 2024 3 8 23 59 59 0 (Some 120));
                    mkSnap 1500 Sample.at_14; mkSnap 1520 Sample.at_15] _)).
  repeat constructor.
Defined.

Lemma filter_by_date_bad_entry keep es1 e es2 :
  entry_date e = None -> filter_by_date keep (es1 ++ e :: es2) = None.
Proof.
  intros He. induction es1 as [|x es1 IH]; cbn [app filter_by_date].
  - rewrite He. reflexivity.
  - rewrite IH. destruct (entry_date x); reflexivity.
Qed.

Lemma no_timestamp_entry_date e : no_timestamp e -> entry_date e = None.
Proof.
  unfold no_timestamp, entry_date.
  destruct (dict_get e "timestamp") as [[z|s]|]; try reflexivity.
  intros H. unfold fromisoformat. rewrite H. reflexivity.
Qed.

(** X5. One element without a readable timestamp (no ["timestamp"] key, a
    number for it, or a string that does not start with a four-digit
    year), wherever it stands in the history and whatever the other
    elements are, makes [get_daily_elo_change] return 0 and makes
    [clean_old_elo_records] leave the file as it is. *)
Theorem unreadable_timestamp_spoils_the_day t es1 e es2 now :
  json_load t = Some (es1 ++ e :: es2) ->
  no_timestamp e ->
  get_daily_elo_change now (Some t) = 0
  /\ clean_old_elo_records now (Some t) = Some t.
Proof.
  intros Ht Hno. pose proof (no_timestamp_entry_date e Hno) as He.
  unfold get_daily_elo_change, clean_old_elo_records.
  rewrite Ht. unfold daily_change_of.
  rewrite !(filter_by_date_bad_entry _ es1 e es2 He).
  destruct (es1 ++ e :: es2) eqn:E; [destruct es1; discriminate E|].
  split; reflexivity.
Qed.

Lemma unreadable_timestamp_spoils_the_day_witness :
  let good1 := entry 1500 (isoformat Sample.at_14) in
  let bad := entry 1490 "last week" in
  let good2 := entry 1520 (isoformat Sample.at_15) in
  let t := json_dump [good1; bad; good2] in
  json_load t = Some ([good1] ++ bad :: [good2]) /\
  no_timestamp bad /\
  get_daily_elo_change Sample.at_16 (Some t) = 0 /\
  get_daily_elo_change Sample.at_16 (Some (json_dump [good1; good2])) = 20.
Proof.
  cbv zeta. split; [vm_compute; reflexivity|]. split; [reflexivity|].
  split; [|vm_compute; reflexivity].
  refine (proj1 (unreadable_timestamp_spoils_the_day
                   (json_dump [entry 1500 (isoformat Sample.at_14);
                               entry 1490 "last week";
                               entry 1520 (isoformat Sample.at_15)])
                   [entry 1500 (isoformat Sample.at_14)]
                   (entry 1490 "last week")
                   [entry 1520 (isoformat Sample.at_15)]
                   Sample.at_16 _ _)).
  - vm_compute; reflexivity.
  - reflexivity.
Defined.

Lemma reset_daily_stats_history now h s :
  reset_daily_stats now (Some (write_history (h ++ [s])))
  = Some (write_history [mkSnap (rating s) now]).
Proof.
  unfold reset_daily_stats.
  rewrite json_load_write_history, last_elo_entries. reflexivity.
Qed.

Lemma daily_delta_zero_first today s0 h :
  rating s0 = 0 -> daily_delta today (s0 :: h) = daily_delta today h.
Proof.
  intros H0. unfold daily_delta, same_day. cbn [filter].
  destruct (date_eqb today (date_of (taken s0))); [|reflexivity].
  cbn [drop_zero_prefix]. rewrite H0. reflexivity.
Qed.

(** X6. The seed does not count. The file [__init__] creates holds one
    snapshot with rating 0, and an existing file is never overwritten; and
    after any ratings saved on top of the seed, the daily delta is the
    delta of the saved ratings alone, so a single saved rating gives 0. *)
Theorem seed_does_not_count n0 rs now t :
  wf_datetimeb n0 = true ->
  Forall wf_snapshot (snaps rs) ->
  init_elo_file n0 None = Some (write_history [mkSnap 0 n0])
  /\ init_elo_file n0 (Some t) = Some t
  /\ get_daily_elo_change now (save_all rs (init_elo_file n0 None))
     = daily_delta (date_of now) (snaps rs)
  /\ (forall r n1, rs = [(r, n1)] ->
        get_daily_elo_change now (save_all rs (init_elo_file n0 None)) = 0).
Proof.
  intros H0 Hrs. split; [reflexivity|]. split; [reflexivity|].
  assert (E : get_daily_elo_change now (save_all rs (init_elo_file n0 None))
              = daily_delta (date_of now) (snaps rs)).
  { change (init_elo_file n0 None)
      with (Some (write_history [mkSnap 0 n0])).
    rewrite save_all_history. cbn [app].
    rewrite get_daily_elo_change_history by (constructor; assumption).
    apply daily_delta_zero_first. reflexivity. }
  split; [exact E|].
  intros r n1 ->. rewrite E. unfold daily_delta, same_day.
  cbn [snaps map filter fst snd taken].
  destruct (date_eqb (date_of now) (date_of n1)); [|reflexivity].
  cbn [drop_zero_prefix rating]. destruct (r =? 0); reflexivity.
Qed.

Lemma seed_does_not_count_witness :
  let rs := [(1500, Sample.at_14); (1520, Sample.at_15)] in
  wf_datetimeb (mkDT 2024 3 9 4 0 0 17 (Some 120)) = true /\
  Forall wf_snapshot (snaps rs) /\
  get_daily_elo_change Sample.at_16
    (save_all rs (init_elo_file (mkDT 2024 3 9 4 0 0 17 (Some 120)) None))
  = 20.
Proof.
  cbv zeta. split; [reflexivity|]. split; [repeat constructor|].
  eapply eq_trans;
    [refine (proj1 (proj2 (proj2
       (seed_does_not_count (mkDT 2024 3 9 4 0 0 17 (Some 120))
          [(1500, Sample.at_14); (1520, Sample.at_15)] Sample.at_16 [] _ _))));
     [reflexivity|repeat constructor]
    |reflexivity].
Defined.

(** X7. The rating carries over the reset. After [reset_daily_stats] on
    a history whose last rating is not 0, a rating [r] saved on the day of
    the reset gives the daily delta [r] minus that last rating; and a
    second reset keeps the rating and takes the new instant. *)
Theorem reset_then_save_measures_from_last h s now n1 r now' :
  wf_datetimeb now = true ->
  wf_datetimeb n1 = true ->
  rating s <> 0 ->
  date_of now = date_of now' ->
  date_of n1 = date_of now' ->
  get_daily_elo_change now'
    (save_elo_record r n1
       (reset_daily_stats now (Some (write_history (h ++ [s])))))
  = r - rating s
  /\ reset_daily_stats n1
       (reset_daily_stats now (Some (write_history (h ++ [s]))))
     = Some (write_history [mkSnap (rating s) n1]).
Proof.
  intros Hnow Hn1 Hs Hd Hd1.
  rewrite (reset_daily_stats_history now h s). split.
  - rewrite save_elo_record_history. cbn [app].
    rewrite get_daily_elo_change_history
      by (repeat constructor; assumption).
    unfold daily_delta, same_day. cbn [filter taken]. rewrite Hd, Hd1.
    assert (E : date_eqb (date_of now') (date_of now') = true)
      by (apply date_eqb_eq; reflexivity).
    rewrite E. cbn [drop_zero_prefix rating].
    apply Z.eqb_neq in Hs. rewrite Hs. reflexivity.
  - apply (reset_daily_stats_history n1 [] (mkSnap (rating s) now)).
Qed.

Lemma reset_then_save_measures_from_last_witness :
  let h := [mkSnap 1480 (mkDT 2024 3 8 23 0 0 0 (Some 120))] in
  let four := mkDT 2024 3 9 4 0 0 250 (Some 120) in
  wf_datetimeb four = true /\
  wf_datetimeb Sample.at_14 = true /\
  1480 <> 0 /\
  date_of four = date_of Sample.at_15 /\
  date_of Sample.at_14 = date_of Sample.at_15 /\
  get_daily_elo_change Sample.at_15
    (save_elo_record 1500 Sample.at_14
       (reset_daily_stats four (Some (write_history ([] ++ h)))))
  = 1500 - 1480.
Proof.
  cbv zeta. split; [reflexivity|]. split; [reflexivity|].
  split; [discriminate|]. split; [reflexivity|]. split; [reflexivity|].
  refine (proj1 (reset_then_save_measures_from_last []
                   (mkSnap 1480 (mkDT 2024 3 8 23 0 0 0 (Some 120)))
                   (mkDT 2024 3 9 4 0 0 250 (Some 120))
                   Sample.at_14 1500 Sample.at_15 _ _ _ _ _));
    [reflexivity|reflexivity|discriminate|reflexivity|reflexivity].
Defined.

End StoreCoverage.

(** ** What a run of store calls keeps in the file *)

Section FileInvariant.

Lemma Forall_rated_nonneg r :
  Forall (fun s' => 0 < rating s') r -> Forall (fun s' => 0 <= rating s') r.
Proof. apply Forall_impl. intros; lia. Qed.












End FileInvariant.

(** ** More on the FACEIT client *)

Section FaceitCoverage.

#[local] Open Scope string_scope.

Lemma truthy_empty_or_none pt :
  truthy pt = false -> pt = None \/ pt = Some EmptyString.
Proof.
  destruct pt as [s|]; [|auto]. cbn [truthy].
  destruct (String.eqb_spec s EmptyString) as [->|]; [auto|discriminate].
Qed.







End FaceitCoverage.

(** ** More on the daily reset scheduler *)

Section SchedulerCoverage.




End SchedulerCoverage.

(** ** More on the dispatcher *)

Section DispatcherCoverage.

(** X12. The cooldown runs from the completion: when a first [!elo]
    passed the gates and its thread has completed, an [!elo] that arrives
    5 seconds or more after that completion is accepted, whoever sends it:
    a second thread is started, at its first statement, and it is the
    pending one. *)
Theorem _handle_elo_command_accepts_after_cooldown
    u1 t1 u2 t2 w1 w2 w3 w4 w5 b :
  elo_cooldown <= t1 - last_elo_time b ->
  pending_alive b = false ->
  elo_cooldown <= t2 - w_time w5 ->
  let b2 := _process_elo (List.length (threads b)) w1 w2 w3 w4 w5
              (_handle_elo_command u1 t1 b) in
  let b3 := _handle_elo_command u2 t2 b2 in
  threads b3
  = threads b ++ [mkThread u1 pc_done; mkThread u2 pc_fetch]
  /\ pending_elo_thread b3 = Some (S (List.length (threads b)))
  /\ pending_alive b3 = true
  /\ irc b3 = irc b2
  /\ ELO_FILE b3 = ELO_FILE b2.
Proof.
  intros Hc Hp H2. cbv zeta.
  rewrite (handle_spawns u1 t1 b Hc Hp), _process_elo_spawned.
  rewrite handle_spawns.
  - unfold spawn, pending_alive.
    cbn [threads pending_elo_thread irc ELO_FILE CHANNEL last_elo_time
           events].
    rewrite <- app_assoc. cbn [app].
    rewrite length_app. cbn [List.length].
    replace (List.length (threads b) + 1)%nat
      with (S (List.length (threads b))) by lia.
    split; [reflexivity|]. split; [reflexivity|].
    split; [|split; reflexivity].
    replace (threads b ++ [mkThread u1 pc_done; mkThread u2 pc_fetch])
      with ((threads b ++ [mkThread u1 pc_done]) ++ [mkThread u2 pc_fetch])
      by (rewrite <- app_assoc; reflexivity).
    replace (S (List.length (threads b)))
      with (List.length (threads b ++ [mkThread u1 pc_done]))
      by (rewrite length_app; cbn; lia).
    rewrite nth_error_snoc. reflexivity.
  - cbn [last_elo_time]. exact H2.
  - unfold pending_alive. cbn [pending_elo_thread threads].
    rewrite nth_error_snoc. reflexivity.
Qed.

Lemma _handle_elo_command_accepts_after_cooldown_witness :
  let w := Sample.world_1520 in
  let b2 := _process_elo 0 w w w w w
              (_handle_elo_command "bob" 1700000000000000 Sample.bot_1500) in
  elo_cooldown <= 1700000000000000 - last_elo_time Sample.bot_1500 /\
  pending_alive Sample.bot_1500 = false /\
  elo_cooldown <= 1700000007000000 - w_time w /\
  threads (_handle_elo_command "alice" 1700000007000000 b2)
  = [mkThread "bob" pc_done; mkThread "alice" pc_fetch].
Proof.
  cbv zeta. split; [vm_compute; discriminate|]. split; [reflexivity|].
  split; [vm_compute; discriminate|].
  refine (proj1
    (_handle_elo_command_accepts_after_cooldown "bob" 1700000000000000
       "alice" 1700000007000000
       Sample.world_1520 Sample.world_1520 Sample.world_1520
       Sample.world_1520 Sample.world_1520 Sample.bot_1500 _ _ _)).
  - vm_compute; discriminate.
  - reflexivity.
  - vm_compute; discriminate.
Defined.

Lemma filter_set_nth {A} (P : A -> bool) (l : list A) : forall i x y,
  nth_error l i = Some x ->
  (List.length (filter P (set_nth i y l)) + (if P x then 1 else 0)
   = List.length (filter P l) + (if P y then 1 else 0))%nat.
Proof.
  induction l as [|z l IH]; intros i x y H.
  - destruct i; discriminate H.
  - destruct i as [|i]; cbn [nth_error set_nth filter] in *.
    + injection H as ->.
      destruct (P x), (P y); cbn [List.length]; lia.
    + specialize (IH i x y H).
      destruct (P z); cbn [List.length]; lia.
Qed.

(** The number of lines sent so far is the number of threads that are
    past their [send_message]. *)
Lemma replies_thread_step i w b :
  List.length (irc b) = List.length (filter has_sent (threads b)) ->
  List.length (irc (thread_step i w b))
  = List.length (filter has_sent (threads (thread_step i w b))).
Proof.
  intros Hinv. unfold thread_step.
  destruct (nth_error (threads b) i) as [t|] eqn:Hi; [|exact Hinv].
  destruct t as [user p]. cbn [at_pc username].
  destruct p; try exact Hinv;
    try destruct (0 <? Elo s);
    cbn [irc threads]; unfold goto;
    match goal with
    | |- context [set_nth i ?y (threads b)] =>
        pose proof (filter_set_nth has_sent (threads b) i _ y Hi) as E
    end;
    cbn [has_sent at_pc] in E; rewrite ?length_app; cbn [List.length]; lia.
Qed.

Lemma replies_handle user t b :
  List.length (irc b) = List.length (filter has_sent (threads b)) ->
  List.length (irc (_handle_elo_command user t b))
  = List.length (filter has_sent (threads (_handle_elo_command user t b))).
Proof.
  intros Hinv. unfold _handle_elo_command.
  destruct (t - last_elo_time b <? elo_cooldown); [exact Hinv|].
  destruct (pending_alive b); [exact Hinv|].
  cbn [spawn irc threads]. rewrite filter_app. cbn [filter has_sent at_pc].
  rewrite List.app_nil_r. exact Hinv.
Qed.

Lemma filter_length_le {A} (P : A -> bool) l :
  (List.length (filter P l) <= List.length l)%nat.
Proof.
  induction l as [|x l IH]; [cbn; lia|].
  cbn [filter]. destruct (P x); cbn [List.length]; lia.
Qed.

(** X13. One reply per accepted command at most: in every state the
    process can reach, the lines given to the socket are as many as the
    threads that are past their [send_message], so never more than the
    threads started; a command itself, accepted or dropped, sends
    nothing. *)
Theorem one_reply_per_thread channel f b :
  reachable channel f b ->
  List.length (irc b) = List.length (filter has_sent (threads b))
  /\ (List.length (irc b) <= List.length (threads b))%nat
  /\ (forall user t, irc (_handle_elo_command user t b) = irc b).
Proof.
  intros Hr.
  assert (Hinv : List.length (irc b)
                 = List.length (filter has_sent (threads b))).
  { induction Hr as [now|b b' _ IH Hs]; [reflexivity|].
    destruct Hs as [user t|i w|now|now].
    - apply replies_handle, IH.
    - apply replies_thread_step, IH.
    - exact IH.
    - exact IH. }
  split; [exact Hinv|]. split.
  - rewrite Hinv. apply filter_length_le.
  - intros user t. unfold _handle_elo_command.
    destruct (t - last_elo_time b <? elo_cooldown); [reflexivity|].
    destruct (pending_alive b); reflexivity.
Qed.

Lemma one_reply_per_thread_witness :
  let b := _process_elo 0 Sample.world_1520 Sample.world_1520
             Sample.world_1520 Sample.world_1520 Sample.world_1520
             (_handle_elo_command "bob" 1700000000000000
                (initial "chan" (init_elo_file Sample.at_14 None))) in
  reachable "chan" None b /\
  List.length (irc b) = 1%nat /\
  List.length (irc b) = List.length (filter has_sent (threads b)).
Proof.
  cbv zeta.
  assert (Hr : reachable "chan" None
                 (_process_elo 0 Sample.world_1520 Sample.world_1520
                    Sample.world_1520 Sample.world_1520 Sample.world_1520
                    (_handle_elo_command "bob" 1700000000000000
                       (initial "chan" (init_elo_file Sample.at_14 None))))).
  { unfold _process_elo.
    do 5 (eapply reach_step; [|apply step_thread]).
    eapply reach_step; [apply reach_init|apply step_command]. }
  split; [exact Hr|]. split; [reflexivity|].
  exact (proj1 (one_reply_per_thread "chan" None _ Hr)).
Defined.

Lemma str_app a b : str (a ++ b)%string = str a ++ str b.
Proof.
  unfold str. induction a as [|c a IH]; [reflexivity|].
  cbn [String.append list_ascii_of_string app]. rewrite IH. reflexivity.
Qed.

Lemma one_line_app a b : one_line a -> one_line b -> one_line (a ++ b)%string.
Proof.
  unfold one_line. rewrite str_app. intros Ha Hb.
  apply Forall_app. split; assumption.
Qed.

Lemma one_line_uint d : one_line (NilEmpty.string_of_uint d).
Proof.
  unfold one_line.
  induction d; cbn [NilEmpty.string_of_uint str list_ascii_of_string];
    constructor; try exact IHd; split; discriminate.
Qed.

Lemma one_line_py_str z : one_line (py_str z).
Proof.
  unfold py_str.
  destruct (to_int_cases z) as [(d & -> & Hd)|(d & -> & Hd)];
    cbn [NilZero.string_of_int].
  - destruct d; [congruence|apply (one_line_uint _)..].
  - apply (one_line_app "-"); [repeat constructor; discriminate|].
    destruct d; [congruence|apply (one_line_uint _)..].
Qed.

Lemma one_line_change_str z : one_line (change_str z).
Proof.
  unfold change_str. destruct (0 <? z); [|apply one_line_py_str].
  apply (one_line_app "+"); [repeat constructor; discriminate|].
  apply one_line_py_str.
Qed.

(** X19. The reply is one IRC line: when the channel and the user name
    hold no carriage return and no line feed, the text [send_message]
    gives to the socket is [PRIVMSG #channel :] and a body without any
    line break, followed by the one CR LF that ends it, whatever the
    rating, the counts and the delta are. *)
Theorem reply_is_one_line channel user s daily_change :
  one_line channel -> one_line user ->
  exists body,
    privmsg channel (response user s daily_change)
    = ("PRIVMSG #" ++ channel ++ " :" ++ body ++ crlf)%string
    /\ one_line body
    /\ one_line ("PRIVMSG #" ++ channel ++ " :" ++ body)%string.
Proof.
  intros Hc Hu. exists (response user s daily_change).
  split; [reflexivity|].
  assert (Hb : one_line (response user s daily_change)).
  { unfold response.
    repeat first
      [ apply one_line_py_str
      | apply one_line_change_str
      | exact Hu
      | apply one_line_app
      | (repeat constructor; discriminate) ]. }
  split; [exact Hb|].
  apply (one_line_app "PRIVMSG #"); [repeat constructor; discriminate|].
  apply one_line_app; [exact Hc|].
  apply (one_line_app " :"); [repeat constructor; discriminate|exact Hb].
Qed.

Lemma reply_is_one_line_witness :
  one_line "chan" /\ one_line "bob" /\
  exists body,
    privmsg "chan" (response "bob" (mkStats 1520 2 1) (-15))
    = ("PRIVMSG #" ++ "chan" ++ " :" ++ body ++ crlf)%string
    /\ one_line body
    /\ one_line ("PRIVMSG #" ++ "chan" ++ " :" ++ body)%string.
Proof.
  assert (H1 : one_line "chan") by (repeat constructor; discriminate).
  assert (H2 : one_line "bob") by (repeat constructor; discriminate).
  split; [exact H1|]. split; [exact H2|].
  exact (reply_is_one_line "chan" "bob" (mkStats 1520 2 1) (-15) H1 H2).
Defined.

End DispatcherCoverage.

(** ** The Twitch application token *)

Section TokenCoverage.

(** X14. The token is kept until 60 seconds before it expires. After a
    refresh that received a token and a lifetime of [e] seconds at time
    [t0], [ensure_twitch_token] called before [t0 + e - 60 s] changes
    nothing, whatever the endpoint would answer; called at that time or
    later it refreshes. A refresh that fails (exception, status 400 to
    599, payload that does not decode or has no token) leaves token and
    expiry as they were. *)
Theorem ensure_twitch_token_keeps_valid_token tok e t0 st :
  tok <> EmptyString ->
  let fresh := refresh_twitch_token
                 (Response 200 (Some (mkToken (Some tok) (Some e)))) t0 st in
  fresh = mkTokenState (Some tok) (t0 + e * 1000000 - 60 * 1000000)
  /\ (forall t r t',
        t < t0 + e * 1000000 - 60 * 1000000 ->
        ensure_twitch_token t r t' fresh = fresh)
  /\ (forall t r t',
        t0 + e * 1000000 - 60 * 1000000 <= t ->
        ensure_twitch_token t r t' fresh = refresh_twitch_token r t' fresh)
  /\ (forall r t' st',
        match r with
        | RequestError => True
        | Response code body =>
            raises_for_status code = true \/ body = None
            \/ exists e', body = Some (mkToken None e')
        end ->
        refresh_twitch_token r t' st' = st').
Proof.
  intros Htok. cbv zeta. cbn [refresh_twitch_token raises_for_status Z.leb
    Z.ltb Z.compare Pos.compare Pos.compare_cont andb access_token
    expires_in].
  split; [reflexivity|].
  split; [|split].
  - intros t r t' Ht. unfold ensure_twitch_token.
    cbn [TWITCH_APP_TOKEN TOKEN_EXPIRES_AT].
    rewrite (truthy_named tok Htok). cbn [negb orb].
    destruct (Z.leb_spec (t0 + e * 1000000 - 60 * 1000000) t); [lia|].
    reflexivity.
  - intros t r t' Ht. unfold ensure_twitch_token.
    cbn [TWITCH_APP_TOKEN TOKEN_EXPIRES_AT].
    destruct (Z.leb_spec (t0 + e * 1000000 - 60 * 1000000) t); [|lia].
    rewrite orb_true_r. reflexivity.
  - intros r t' st' H. destruct r as [|code body]; [reflexivity|].
    cbn [refresh_twitch_token].
    destruct (raises_for_status code); [reflexivity|].
    destruct H as [H|[->|[e' ->]]]; [discriminate|reflexivity..].
Qed.

Lemma ensure_twitch_token_keeps_valid_token_witness :
  let fresh := mkTokenState (Some "abc"%string) 1700003540000000 in
  "abc"%string <> EmptyString /\
  refresh_twitch_token
    (Response 200 (Some (mkToken (Some "abc"%string) (Some 3600))))
    1700000000000000 no_token = fresh /\
  ensure_twitch_token 1700003539999999 RequestError 0 fresh = fresh.
Proof.
  cbv zeta. split; [discriminate|].
  pose proof (ensure_twitch_token_keeps_valid_token "abc" 3600
                1700000000000000 no_token ltac:(discriminate))
    as (H1 & H2 & _).
  split; [exact H1|].
  refine (eq_trans _ (eq_trans (H2 1700003539999999 RequestError 0 _) _));
    [reflexivity|vm_compute; reflexivity|reflexivity].
Defined.

(** X15. A payload with a token and without [expires_in] replaces the
    token and leaves the old expiry in place: the assignment of the token
    comes before the lookup that raises. From the initial state the first
    [ensure_twitch_token] always refreshes. *)
Theorem refresh_twitch_token_partial_update tok code now st :
  raises_for_status code = false ->
  refresh_twitch_token (Response code (Some (mkToken (Some tok) None))) now st
  = mkTokenState (Some tok) (TOKEN_EXPIRES_AT st)
  /\ (forall t r t',
        ensure_twitch_token t r t' no_token
        = refresh_twitch_token r t' no_token).
Proof.
  intros Hc. split.
  - cbn [refresh_twitch_token access_token expires_in]. rewrite Hc.
    reflexivity.
  - intros t r t'. reflexivity.
Qed.

Lemma refresh_twitch_token_partial_update_witness :
  raises_for_status 200 = false /\
  refresh_twitch_token
    (Response 200 (Some (mkToken (Some "new"%string) None))) 1700000000000000
    (mkTokenState (Some "old"%string) 1690000000000000)
  = mkTokenState (Some "new"%string) 1690000000000000.
Proof.
  split; [reflexivity|].
  exact (proj1 (refresh_twitch_token_partial_update "new" 200
                  1700000000000000
                  (mkTokenState (Some "old"%string) 1690000000000000)
                  eq_refl)).
Defined.

End TokenCoverage.

(** ** The read loop *)

Section IrcCoverage.

#[local] Open Scope char_scope.

Lemma starts_with_app needle r : starts_with needle (needle ++ r) = true.
Proof.
  induction needle as [|c n IH]; [reflexivity|].
  cbn [app starts_with]. rewrite Ascii.eqb_refl. exact IH.
Qed.

Lemma skipn_length_app {A} (a b : list A) : skipn (List.length a) (a ++ b) = b.
Proof. induction a as [|x a IH]; [reflexivity|exact IH]. Qed.

Lemma split1_unfold needle s :
  split1 needle s
  = if starts_with needle s
    then ([], Some (skipn (List.length needle) s))
    else match s with
         | [] => ([], None)
         | c :: s' => let (a, b) := split1 needle s' in (c :: a, b)
         end.
Proof. destruct s; reflexivity. Qed.

(** The first occurrence of a word is where it stands, when nothing
    before it has the first character of the word. *)
Lemma split1_first c0 needle p r :
  Forall (fun d => Ascii.eqb c0 d = false) p ->
  split1 (c0 :: needle) (p ++ (c0 :: needle) ++ r) = (p, Some r).
Proof.
  induction 1 as [|d p Hd _ IH].
  - cbn [app]. change (c0 :: needle ++ r) with ((c0 :: needle) ++ r).
    rewrite split1_unfold, starts_with_app, skipn_length_app. reflexivity.
  - rewrite <- app_comm_cons, split1_unfold.
    cbn [starts_with]. rewrite Hd. cbn [andb].
    rewrite IH. reflexivity.
Qed.

Lemma contains_app needle p r : contains needle (p ++ needle ++ r) = true.
Proof.
  assert (U : forall s, contains needle s
                        = starts_with needle s
                          || match s with
                             | [] => false
                             | _ :: s' => contains needle s'
                             end) by (intros [|? ?]; reflexivity).
  induction p as [|d p IH].
  - cbn [app]. rewrite U, starts_with_app. reflexivity.
  - rewrite <- app_comm_cons, U, IH. apply orb_true_r.
Qed.

Lemma login_char_facts c :
  login_char c = true ->
  Ascii.eqb "!" c = false /\ Ascii.eqb "P" c = false
  /\ Ascii.eqb ":" c = false /\ is_continuation c = false.
Proof.
  destruct c as [b0 b1 b2 b3 b4 b5 b6 b7].
  destruct b0, b1, b2, b3, b4, b5, b6, b7; cbn; intros H;
    first [discriminate H | repeat split].
Qed.

Lemma Forall_login_not c nick :
  (forall d, login_char d = true -> Ascii.eqb c d = false) ->
  Forall (fun d => login_char d = true) nick ->
  Forall (fun d => Ascii.eqb c d = false) nick.
Proof. intros H. apply Forall_impl. exact H. Qed.

Lemma drop_continuation_login nick :
  Forall (fun d => login_char d = true) nick -> drop_continuation nick = nick.
Proof.
  intros H. destruct H as [|d nick Hd _]; [reflexivity|].
  cbn [drop_continuation].
  destruct (login_char_facts d Hd) as (_ & _ & _ & ->). reflexivity.
Qed.

(** X16. From the line Twitch sends for a chat message, with a login and
    a channel made of lower-case letters, digits and underscores,
    [_parse_message] extracts the login and the message without the white
    space around it, whatever the message holds (colons, exclamation
    marks, the word PRIVMSG). *)
Theorem _parse_message_chat_line nick channel message :
  Forall (fun d => login_char d = true) nick ->
  Forall (fun d => login_char d = true) channel ->
  _parse_message (chat_line nick channel message)
  = Some (nick, py_strip (message ++ ["013"; "010"])).
Proof.
  intros Hn Hc.
  pose proof (Forall_login_not "!" nick
                (fun d H => proj1 (login_char_facts d H)) Hn) as Hn1.
  pose proof (Forall_login_not "P" nick
                (fun d H => proj1 (proj2 (login_char_facts d H))) Hn) as Hn2.
  pose proof (Forall_login_not ":" channel
                (fun d H => proj1 (proj2 (proj2 (login_char_facts d H)))) Hc)
    as Hc1.
  unfold _parse_message, chat_line.
  (* the user name: up to the first exclamation mark *)
  assert (E1 : split1 (str "!")
                 (str ":" ++ nick ++ str "!" ++ nick ++ str "@" ++ nick
                  ++ str ".tmi.twitch.tv PRIVMSG #" ++ channel ++ str " :"
                  ++ message ++ ["013"; "010"])
               = (":" :: nick,
                  Some (nick ++ str "@" ++ nick
                        ++ str ".tmi.twitch.tv PRIVMSG #" ++ channel
                        ++ str " :" ++ message ++ ["013"; "010"]))).
  { change (str "!") with ["!"].
    change (str ":" ++ nick ++ ["!"] ++ ?x)
      with ((":" :: nick) ++ ["!"] ++ x).
    apply split1_first. constructor; [reflexivity|exact Hn1]. }
  rewrite E1. cbn [fst tail1]. rewrite (drop_continuation_login nick Hn).
  (* the rest: after the first PRIVMSG *)
  assert (E2 : split1 (str "PRIVMSG")
                 (str ":" ++ nick ++ str "!" ++ nick ++ str "@" ++ nick
                  ++ str ".tmi.twitch.tv PRIVMSG #" ++ channel ++ str " :"
                  ++ message ++ ["013"; "010"])
               = (str ":" ++ nick ++ str "!" ++ nick ++ str "@" ++ nick
                  ++ str ".tmi.twitch.tv ",
                  Some (str " #" ++ channel ++ str " :" ++ message
                        ++ ["013"; "010"]))).
  { replace (str ":" ++ nick ++ str "!" ++ nick ++ str "@" ++ nick
             ++ str ".tmi.twitch.tv PRIVMSG #" ++ channel ++ str " :"
             ++ message ++ ["013"; "010"])
      with ((str ":" ++ nick ++ str "!" ++ nick ++ str "@" ++ nick
             ++ str ".tmi.twitch.tv ")
            ++ str "PRIVMSG"
            ++ (str " #" ++ channel ++ str " :" ++ message
                ++ ["013"; "010"]))
      by (rewrite <- !app_assoc; reflexivity).
    change (str "PRIVMSG") with ("P" :: str "RIVMSG").
    apply split1_first.
    repeat (apply Forall_app; split);
      first [exact Hn2 | repeat constructor]. }
  rewrite E2. cbn [snd].
  (* the message: after the first colon of the rest *)
  assert (E3 : split1 (str ":")
                 (str " #" ++ channel ++ str " :" ++ message
                  ++ ["013"; "010"])
               = (str " #" ++ channel ++ str " ",
                  Some (message ++ ["013"; "010"]))).
  { replace (str " #" ++ channel ++ str " :" ++ message ++ ["013"; "010"])
      with ((str " #" ++ channel ++ str " ")
            ++ [":"] ++ (message ++ ["013"; "010"]))
      by (rewrite <- !app_assoc; reflexivity).
    change (str ":") with [":"].
    apply split1_first.
    repeat (apply Forall_app; split);
      first [exact Hc1 | repeat constructor]. }
  rewrite E3. reflexivity.
Qed.

Lemma plain_facts c :
  plain c = true ->
  space1 c = false
  /\ (forall x, space2 c x = false) /\ (forall x, space2 x c = false)
  /\ (forall x y, space3 c x y = false) /\ (forall x y, space3 x c y = false)
  /\ (forall x y, space3 x y c = false)
  /\ (forall x y, is_kelvin c x y = false)
  /\ (forall x y, is_kelvin x c y = false)
  /\ (forall x y, is_kelvin x y c = false)
  /\ plain (lower1 c) = true.
Proof.
  unfold space2, space3, is_kelvin.
  destruct c as [b0 b1 b2 b3 b4 b5 b6 b7].
  destruct b0, b1, b2, b3, b4, b5, b6, b7; cbn; intros H;
    first [discriminate H
          | repeat split; intros;
            rewrite ?andb_false_r, ?orb_false_r, ?andb_false_r;
            reflexivity].
Qed.

Lemma lower1_plain c : plain (lower1 c) = true -> plain c = true.
Proof.
  destruct c as [b0 b1 b2 b3 b4 b5 b6 b7].
  destruct b0, b1, b2, b3, b4, b5, b6, b7; cbn; intros H;
    first [discriminate H | reflexivity].
Qed.

Lemma lstrip_pad pad s :
  Forall (fun c => space1 c = true) pad -> lstrip (pad ++ s) = lstrip s.
Proof.
  induction 1 as [|c pad Hc _ IH]; [reflexivity|].
  cbn [app lstrip]. rewrite Hc. exact IH.
Qed.

Lemma lstrip_plain c s : plain c = true -> lstrip (c :: s) = c :: s.
Proof.
  intros H. destruct (plain_facts c H) as (H1 & H2 & _ & H3 & _).
  cbn [lstrip]. rewrite H1.
  destruct s as [|c2 s2]; [reflexivity|]. rewrite H2.
  destruct s2 as [|c3 s3]; [reflexivity|]. rewrite H3. reflexivity.
Qed.

Lemma rstrip_rev_pad pad s :
  Forall (fun c => space1 c = true) pad ->
  rstrip_rev (pad ++ s) = rstrip_rev s.
Proof.
  induction 1 as [|c pad Hc _ IH]; [reflexivity|].
  cbn [app rstrip_rev]. rewrite Hc. exact IH.
Qed.

Lemma rstrip_rev_plain c s : plain c = true -> rstrip_rev (c :: s) = c :: s.
Proof.
  intros H. destruct (plain_facts c H) as (H1 & _ & H2 & _ & _ & H3 & _).
  cbn [rstrip_rev]. rewrite H1.
  destruct s as [|c2 s2]; [reflexivity|]. rewrite H2.
  destruct s2 as [|c3 s3]; [reflexivity|]. rewrite H3. reflexivity.
Qed.

Lemma Forall_rev_keeps {A} (P : A -> Prop) l : Forall P l -> Forall P (rev l).
Proof.
  intros H. apply Forall_forall. intros x Hx. apply in_rev in Hx.
  exact (proj1 (Forall_forall P l) H x Hx).
Qed.

(** White space of one byte around a text that starts and ends with a
    plain character is all that [strip] removes. *)
Lemma py_strip_padded pad1 c body d pad2 :
  Forall (fun x => space1 x = true) pad1 ->
  Forall (fun x => space1 x = true) pad2 ->
  plain c = true -> plain d = true ->
  py_strip (pad1 ++ (c :: body ++ [d]) ++ pad2) = c :: body ++ [d].
Proof.
  intros H1 H2 Hc Hd. unfold py_strip, rstrip.
  rewrite (lstrip_pad pad1 _ H1). cbn [app].
  rewrite (lstrip_plain c _ Hc).
  replace (c :: (body ++ [d]) ++ pad2) with ((c :: body) ++ d :: pad2)
    by (cbn [app]; rewrite <- app_assoc; reflexivity).
  rewrite rev_app_distr. cbn [rev]. rewrite <- app_assoc. cbn [app].
  rewrite (rstrip_rev_pad (rev pad2) _ (Forall_rev_keeps _ _ H2)).
  rewrite (rstrip_rev_plain d _ Hd).
  change (d :: rev body ++ [c]) with (rev ((c :: body) ++ [d]))
    || (rewrite <- (rev_involutive (c :: body ++ [d]));
        f_equal; cbn [rev]; rewrite rev_app_distr; reflexivity).
Qed.

Lemma py_lower_plain s :
  Forall (fun c => plain c = true) s -> py_lower s = map lower1 s.
Proof.
  induction 1 as [|c s Hc _ IH]; [reflexivity|].
  cbn [py_lower map]. rewrite IH.
  destruct (plain_facts c Hc) as (_ & _ & _ & _ & _ & _ & Hk & _).
  destruct s as [|c2 [|c3 s3]]; [reflexivity..|].
  rewrite Hk. reflexivity.
Qed.

Lemma command_text_plain c : Forall (fun x => plain x = true) (command_text c).
Proof. destruct c; repeat constructor. Qed.

Lemma spelled_plain cmd c :
  map lower1 cmd = command_text c -> Forall (fun x => plain x = true) cmd.
Proof.
  intros H. pose proof (command_text_plain c) as Hp. rewrite <- H in Hp.
  clear H. induction cmd as [|x cmd IH]; [constructor|].
  cbn [map] in Hp. inversion Hp; subst.
  constructor; [apply lower1_plain; assumption|apply IH; assumption].
Qed.

Lemma handle_command_spelled cmd c :
  map lower1 cmd = command_text c -> handle_command cmd = Some c.
Proof.
  intros H. unfold handle_command.
  rewrite (py_lower_plain cmd (spelled_plain cmd c H)), H.
  destruct c; reflexivity.
Qed.

Lemma spelled_shape cmd c :
  map lower1 cmd = command_text c ->
  exists x body y, cmd = x :: body ++ [y].
Proof.
  intros H.
  assert (L : (2 <= List.length cmd)%nat).
  { rewrite <- (length_map lower1), H. destruct c; cbn; lia. }
  destruct cmd as [|x rest]; [cbn in L; lia|].
  destruct (@exists_last _ rest) as [body [y E]].
  { destruct rest; [cbn in L; lia|discriminate]. }
  exists x, body, y. rewrite E. reflexivity.
Qed.

Lemma chat_line_contains nick channel message :
  contains (str "PRIVMSG") (chat_line nick channel message) = true.
Proof.
  unfold chat_line.
  replace (str ":" ++ nick ++ str "!" ++ nick ++ str "@" ++ nick
           ++ str ".tmi.twitch.tv PRIVMSG #" ++ channel ++ str " :"
           ++ message ++ ["013"; "010"])
    with ((str ":" ++ nick ++ str "!" ++ nick ++ str "@" ++ nick
           ++ str ".tmi.twitch.tv ")
          ++ str "PRIVMSG"
          ++ (str " #" ++ channel ++ str " :" ++ message
              ++ ["013"; "010"]))
    by (rewrite <- !app_assoc; reflexivity).
  apply contains_app.
Qed.

(** X17. A command is recognised in any capitalisation and with white
    space around it: for a chat line of a user whose message is one of
    [!elo], [!checkelo], [!debug], [!testapi] spelled in upper or lower
    case letters, between any runs of spaces, tabs and line ends, one
    turn of the read loop runs the handler of that command for that
    user. *)
Theorem on_receive_runs_command nick channel pad1 cmd pad2 c :
  Forall (fun d => login_char d = true) nick ->
  Forall (fun d => login_char d = true) channel ->
  Forall (fun x => space1 x = true) pad1 ->
  Forall (fun x => space1 x = true) pad2 ->
  map lower1 cmd = command_text c ->
  on_receive (chat_line nick channel (pad1 ++ cmd ++ pad2))
  = do_command nick c.
Proof.
  intros Hn Hc H1 H2 Hs.
  pose proof (spelled_plain cmd c Hs) as Hp.
  destruct (spelled_shape cmd c Hs) as (x & body & y & E).
  assert (Hx : plain x = true).
  { rewrite E in Hp. inversion Hp; assumption. }
  assert (Hy : plain y = true).
  { rewrite E in Hp. inversion Hp as [|? ? _ Hr]; subst.
    apply Forall_app in Hr. destruct Hr as [_ Hr].
    inversion Hr; assumption. }
  unfold on_receive.
  rewrite (chat_line_contains nick channel (pad1 ++ cmd ++ pad2)).
  rewrite (_parse_message_chat_line nick channel _ Hn Hc).
  assert (Em : py_strip ((pad1 ++ cmd ++ pad2) ++ ["013"; "010"]) = cmd).
  { rewrite E.
    replace ((pad1 ++ (x :: body ++ [y]) ++ pad2) ++ ["013"; "010"])
      with (pad1 ++ (x :: body ++ [y]) ++ (pad2 ++ ["013"; "010"]))
      by (rewrite <- !app_assoc; reflexivity).
    apply py_strip_padded; try assumption.
    apply Forall_app. split; [exact H2|repeat constructor]. }
  rewrite Em, (handle_command_spelled cmd c Hs).
  unfold chat_line. cbn [str list_ascii_of_string app starts_with Ascii.eqb
    Bool.eqb andb].
  reflexivity.
Qed.

Lemma on_receive_runs_command_witness :
  let nick := str "night_owl7" in
  let channel := str "streamer" in
  let pad1 := [" "; "009"] in
  let cmd := str "!ChecKElo" in
  let pad2 := [" "] in
  Forall (fun d => login_char d = true) nick /\
  Forall (fun d => login_char d = true) channel /\
  Forall (fun x => space1 x = true) pad1 /\
  Forall (fun x => space1 x = true) pad2 /\
  map lower1 cmd = command_text cmd_checkelo /\
  on_receive (chat_line nick channel (pad1 ++ cmd ++ pad2))
  = do_command nick cmd_checkelo.
Proof.
  cbv zeta.
  split; [repeat constructor|]. split; [repeat constructor|].
  split; [repeat constructor|]. split; [repeat constructor|].
  split; [reflexivity|].
  apply on_receive_runs_command; first [reflexivity | repeat constructor].
Defined.

Lemma _parse_message_chat_line_witness :
  let nick := str "night_owl7" in
  let channel := str "streamer" in
  let message := str " gg: wp! PRIVMSG me " in
  Forall (fun d => login_char d = true) nick /\
  Forall (fun d => login_char d = true) channel /\
  _parse_message (chat_line nick channel message)
  = Some (nick, str "gg: wp! PRIVMSG me").
Proof.
  cbv zeta.
  split; [repeat constructor|]. split; [repeat constructor|].
  eapply eq_trans;
    [apply _parse_message_chat_line; repeat constructor|reflexivity].
Defined.

(** The part after the first occurrence of a word holds the part after
    any occurrence of it. *)
Lemma split1_suffix needle p r :
  exists x, snd (split1 needle (p ++ needle ++ r)) = Some (x ++ r).
Proof.
  induction p as [|d p [x IH]].
  - exists []. cbn [app].
    rewrite split1_unfold, starts_with_app, skipn_length_app. reflexivity.
  - rewrite <- app_comm_cons, split1_unfold.
    destruct (starts_with needle (d :: p ++ needle ++ r)) eqn:E.
    + cbn [snd].
      destruct (Nat.le_gt_cases (List.length needle)
                  (List.length (d :: p ++ needle))) as [Hle|Hgt].
      * exists (skipn (List.length needle) (d :: p ++ needle)).
        rewrite app_comm_cons, app_assoc.
        rewrite skipn_app.
        replace (List.length needle - List.length ((d :: p) ++ needle))%nat
          with 0%nat by (cbn [List.length app] in *; lia).
        reflexivity.
      * cbn [List.length] in Hgt. rewrite length_app in Hgt. lia.
    + destruct (split1 needle (p ++ needle ++ r)) as [a b].
      cbn [snd] in *. exists x. exact IH.
Qed.

Lemma lstrip_keeps_plain p r : plain p = true ->
  forall n a, (List.length a <= n)%nat ->
  exists a', lstrip (a ++ p :: r) = a' ++ p :: r.
Proof.
  intros Hp. destruct (plain_facts p Hp) as (_ & _ & P2 & _ & P3 & P4 & _).
  induction n as [|n IH]; intros a Ha.
  - destruct a; [|cbn in Ha; lia]. exists []. apply lstrip_plain, Hp.
  - destruct a as [|c1 a1]; [exists []; apply lstrip_plain, Hp|].
    cbn [app lstrip].
    destruct (space1 c1).
    { apply IH. cbn in Ha. lia. }
    destruct a1 as [|c2 a2]; cbn [app].
    { rewrite P2. destruct r as [|c3 r3]; [exists [c1]; reflexivity|].
      rewrite P3. exists [c1]. reflexivity. }
    destruct (space2 c1 c2).
    { apply IH. cbn in Ha. lia. }
    destruct a2 as [|c3 a3]; cbn [app].
    { rewrite P4. exists [c1; c2]. reflexivity. }
    destruct (space3 c1 c2 c3).
    { apply IH. cbn in Ha. lia. }
    exists (c1 :: c2 :: c3 :: a3). reflexivity.
Qed.

Lemma rstrip_rev_keeps_plain p r : plain p = true ->
  forall n a, (List.length a <= n)%nat ->
  exists a', rstrip_rev (a ++ p :: r) = a' ++ p :: r.
Proof.
  intros Hp. destruct (plain_facts p Hp) as (_ & P1 & _ & P5 & P3 & _).
  induction n as [|n IH]; intros a Ha.
  - destruct a; [|cbn in Ha; lia]. exists []. apply rstrip_rev_plain, Hp.
  - destruct a as [|c1 a1]; [exists []; apply rstrip_rev_plain, Hp|].
    cbn [app rstrip_rev].
    destruct (space1 c1).
    { apply IH. cbn in Ha. lia. }
    destruct a1 as [|c2 a2]; cbn [app].
    { rewrite P1. destruct r as [|c3 r3]; [exists [c1]; reflexivity|].
      rewrite P3. exists [c1]. reflexivity. }
    destruct (space2 c2 c1).
    { apply IH. cbn in Ha. lia. }
    destruct a2 as [|c3 a3]; cbn [app].
    { rewrite P5. exists [c1; c2]. reflexivity. }
    destruct (space3 c3 c2 c1).
    { apply IH. cbn in Ha. lia. }
    exists (c1 :: c2 :: c3 :: a3). reflexivity.
Qed.

(** [strip] keeps a block that starts and ends with a plain character. *)
Lemma py_strip_keeps_block a p mid q b :
  plain p = true -> plain q = true ->
  exists a' b', py_strip (a ++ (p :: mid ++ [q]) ++ b)
                = a' ++ (p :: mid ++ [q]) ++ b'.
Proof.
  intros Hp Hq. unfold py_strip, rstrip.
  destruct (lstrip_keeps_plain p ((mid ++ [q]) ++ b) Hp (List.length a) a
              (Nat.le_refl _)) as [a' Ea].
  cbn [app]. cbn [app] in Ea. rewrite Ea.
  replace (a' ++ p :: (mid ++ [q]) ++ b)
    with ((a' ++ p :: mid) ++ q :: b)
    by (rewrite <- !app_assoc; reflexivity).
  rewrite rev_app_distr. cbn [rev]. rewrite <- app_assoc. cbn [app].
  destruct (rstrip_rev_keeps_plain q (rev (a' ++ p :: mid)) Hq
              (List.length (rev b)) (rev b) (Nat.le_refl _)) as [b' Eb].
  rewrite Eb. exists a', (rev b').
  rewrite rev_app_distr. cbn [rev]. rewrite rev_involutive.
  rewrite <- !app_assoc. reflexivity.
Qed.

Lemma ascii_no_kelvin c :
  (N_of_ascii c <? 128)%N = true ->
  (forall x y, is_kelvin c x y = false)
  /\ (forall x y, is_kelvin x c y = false)
  /\ (forall x y, is_kelvin x y c = false).
Proof.
  unfold is_kelvin.
  destruct c as [b0 b1 b2 b3 b4 b5 b6 b7].
  destruct b0, b1, b2, b3, b4, b5, b6, b7; cbn; intros H;
    first [discriminate H
          | repeat split; intros; rewrite ?andb_false_r; reflexivity].
Qed.

Lemma py_lower_ascii_cons c s :
  (N_of_ascii c <? 128)%N = true -> py_lower (c :: s) = lower1 c :: py_lower s.
Proof.
  intros H. destruct (ascii_no_kelvin c H) as (K & _).
  cbn [py_lower]. destruct s as [|c2 [|c3 s3]]; [reflexivity..|].
  rewrite K. reflexivity.
Qed.

Lemma py_lower_ascii_block S b :
  Forall (fun c => (N_of_ascii c <? 128)%N = true) S ->
  py_lower (S ++ b) = map lower1 S ++ py_lower b.
Proof.
  induction 1 as [|c S Hc _ IH]; [reflexivity|].
  cbn [app map]. rewrite (py_lower_ascii_cons c _ Hc), IH. reflexivity.
Qed.

Lemma py_lower_before_ascii c s :
  (N_of_ascii c <? 128)%N = true ->
  forall n a, (List.length a <= n)%nat ->
  exists a', py_lower (a ++ c :: s) = a' ++ py_lower (c :: s).
Proof.
  intros Hc. destruct (ascii_no_kelvin c Hc) as (_ & K2 & K3).
  induction n as [|n IH]; intros a Ha.
  - destruct a; [|cbn in Ha; lia]. exists []. reflexivity.
  - destruct a as [|c1 a1]; [exists []; reflexivity|].
    destruct a1 as [|c2 a2].
    + exists [lower1 c1]. cbn [app].
      change (py_lower (c1 :: c :: s))
        with (match s with
              | c3 :: s3 =>
                  if is_kelvin c1 c c3 then "k" :: py_lower s3
                  else lower1 c1 :: py_lower (c :: s)
              | [] => lower1 c1 :: py_lower (c :: s)
              end).
      destruct s as [|c3 s3]; [reflexivity|]. rewrite K2. reflexivity.
    + destruct a2 as [|c3 a3].
      * destruct (IH [c2] ltac:(cbn in Ha |- *; lia)) as [a' Ea].
        cbn [app] in *.
        change (py_lower (c1 :: c2 :: c :: s))
          with (if is_kelvin c1 c2 c then "k" :: py_lower s
                else lower1 c1 :: py_lower (c2 :: c :: s)).
        rewrite K3, Ea. exists (lower1 c1 :: a'). reflexivity.
      * cbn [app].
        change (py_lower (c1 :: c2 :: c3 :: a3 ++ c :: s))
          with (if is_kelvin c1 c2 c3 then "k" :: py_lower (a3 ++ c :: s)
                else lower1 c1 :: py_lower (c2 :: c3 :: a3 ++ c :: s)).
        destruct (is_kelvin c1 c2 c3).
        -- destruct (IH a3 ltac:(cbn in Ha |- *; lia)) as [a' Ea].
           rewrite Ea. exists ("k" :: a'). reflexivity.
        -- destruct (IH (c2 :: c3 :: a3) ltac:(cbn in Ha |- *; lia))
             as [a' Ea].
           cbn [app] in Ea. rewrite Ea. exists (lower1 c1 :: a'). reflexivity.
Qed.

Lemma text_eqb_length a : forall b,
  text_eqb a b = true -> List.length a = List.length b.
Proof.
  induction a as [|c a IH]; intros [|d b] H; try discriminate H;
    [reflexivity|].
  cbn [text_eqb] in H. apply andb_true_iff in H. destruct H as [_ H].
  cbn [List.length]. f_equal. apply IH, H.
Qed.

Lemma handle_command_long message :
  (9 < List.length (py_strip (py_lower message)))%nat ->
  handle_command message = None.
Proof.
  intros H. unfold handle_command.
  repeat match goal with
         | |- context [text_eqb ?a ?b] =>
             let E := fresh "E" in
             destruct (text_eqb a b) eqn:E;
             [apply text_eqb_length in E; cbn in E; lia|]
         end.
  reflexivity.
Qed.

(** A message that holds the middle of a chat line is no command. *)
Lemma handle_command_with_block a b :
  handle_command
    (py_strip (a ++ str ".tmi.twitch.tv PRIVMSG #" ++ b)) = None.
Proof.
  apply handle_command_long.
  destruct (py_strip_keeps_block a "." (str "tmi.twitch.tv PRIVMSG ") "#" b
              eq_refl eq_refl) as (a1 & b1 & E1).
  change ("." :: str "tmi.twitch.tv PRIVMSG " ++ ["#"])
    with (str ".tmi.twitch.tv PRIVMSG #") in E1.
  rewrite E1.
  destruct (py_lower_before_ascii "." (str "tmi.twitch.tv PRIVMSG #" ++ b1)
              eq_refl (List.length a1) a1 (Nat.le_refl _)) as [a2 E2].
  change (a1 ++ str ".tmi.twitch.tv PRIVMSG #" ++ b1)
    with (a1 ++ "." :: str "tmi.twitch.tv PRIVMSG #" ++ b1).
  rewrite E2.
  change ("." :: str "tmi.twitch.tv PRIVMSG #" ++ b1)
    with (str ".tmi.twitch.tv PRIVMSG #" ++ b1).
  rewrite py_lower_ascii_block by (repeat constructor).
  destruct (py_strip_keeps_block a2 "." (str "tmi.twitch.tv privmsg ") "#"
              (py_lower b1) eq_refl eq_refl) as (a3 & b3 & E3).
  change (map lower1 (str ".tmi.twitch.tv PRIVMSG #"))
    with ("." :: str "tmi.twitch.tv privmsg " ++ ["#"]).
  rewrite E3. rewrite !length_app. cbn [List.length str
    list_ascii_of_string app]. lia.
Qed.

(** X18. Two chat lines that arrive in one chunk run no command, whatever
    the users, channels and messages are, also when each message is a
    command; and a chunk that starts with PING is answered with PONG and
    nothing in it runs a command. *)
Theorem on_receive_two_lines_run_nothing n1 ch1 m1 n2 ch2 m2 rest :
  on_receive (chat_line n1 ch1 m1 ++ chat_line n2 ch2 m2) = do_nothing
  /\ on_receive (str "PING" ++ rest) = do_pong.
Proof.
  split; [|reflexivity].
  unfold on_receive.
  destruct (chat_line n1 ch1 m1 ++ chat_line n2 ch2 m2) as [|c0 l0] eqn:Echunk.
  { unfold chat_line in Echunk. discriminate Echunk. }
  rewrite <- Echunk.
  assert (Hping : starts_with (str "PING")
                    (chat_line n1 ch1 m1 ++ chat_line n2 ch2 m2) = false)
    by reflexivity.
  rewrite Hping.
  destruct (contains (str "PRIVMSG")
              (chat_line n1 ch1 m1 ++ chat_line n2 ch2 m2));
    [|reflexivity].
  unfold _parse_message.
  (* after the first PRIVMSG *)
  set (R1 := str " #" ++ ch1 ++ str " :" ++ m1 ++ ["013"; "010"]
             ++ chat_line n2 ch2 m2).
  assert (Ec : chat_line n1 ch1 m1 ++ chat_line n2 ch2 m2
               = (str ":" ++ n1 ++ str "!" ++ n1 ++ str "@" ++ n1
                  ++ str ".tmi.twitch.tv ") ++ str "PRIVMSG" ++ R1).
  { unfold R1, chat_line at 1. rewrite <- !app_assoc. reflexivity. }
  destruct (split1_suffix (str "PRIVMSG")
              (str ":" ++ n1 ++ str "!" ++ n1 ++ str "@" ++ n1
               ++ str ".tmi.twitch.tv ") R1) as [x Ex].
  rewrite <- Ec in Ex. rewrite Ex.
  (* after the first colon of that *)
  set (R2 := m1 ++ ["013"; "010"] ++ chat_line n2 ch2 m2).
  assert (Er : x ++ R1 = (x ++ str " #" ++ ch1 ++ str " ")
                         ++ str ":" ++ R2).
  { unfold R1, R2. rewrite <- !app_assoc. reflexivity. }
  destruct (split1_suffix (str ":") (x ++ str " #" ++ ch1 ++ str " ") R2)
    as [y Ey].
  rewrite <- Er in Ey. rewrite Ey.
  (* the message holds the middle of the second line *)
  assert (Em : y ++ R2
               = (y ++ m1 ++ ["013"; "010"] ++ str ":" ++ n2 ++ str "!"
                  ++ n2 ++ str "@" ++ n2)
                 ++ str ".tmi.twitch.tv PRIVMSG #"
                 ++ (ch2 ++ str " :" ++ m2 ++ ["013"; "010"])).
  { unfold R2, chat_line. rewrite <- !app_assoc. reflexivity. }
  rewrite Em, handle_command_with_block. reflexivity.
Qed.

End IrcCoverage.
